(** * Rubi Studio back-end-v2: the prompt execution core

    Shallow embedding of
    - [app/llm_providers.py]: the price tables and [calculate_cost] of the
      three providers, and [LLMFactory.get_provider];
    - [app/validators.py]: [validate_variables_against_schema], with the
      fragment of jsonschema's [Draft7Validator] it relies on;
    - [app/schemas.py]: the defaults of [PromptExecutionRequest];
    - [app/main.py]: the route [execute_prompt], as a state-and-exception
      monad over the ledger, the metrics, the in-flight gauge and the
      readings of the clock.

    Numbers.  Python floats are IEEE 754 doubles: every float operation of
    the code (the literals of the price tables, [int * float], [int / int],
    [float * float], [+], [-], [round(x, 6)]) is its exact result rounded to
    the nearest double, ties to even, as CPython computes it; [int(x)]
    truncates toward zero.  The clock is [time.time()], whose readings are
    given by the environment. *)

From Stdlib Require Import ZArith List String Ascii Bool Lia.
From Stdlib Require Import DecimalString QArith_base Qreduction Sorting.Sorted.
Import ListNotations.
Open Scope string_scope.
Open Scope Z_scope.
Set Warnings "-register-all".


(* ------------------------------------------------------------------ *)
(** ** Python values and exceptions *)

(** JSON values as they reach the code (request bodies, JSON columns);
    numbers are integers here.  A Python dict is an association list in
    insertion order whose keys are unique; [lookup] returns the first
    binding. *)
Inductive json :=
| JNull
| JBool (b : bool)
| JInt (z : Z)
| JStr (s : string)
| JArr (l : list json)
| JObj (kv : list (string * json)).

Definition dict := list (string * json).

(** Exceptions raised in the code paths modelled. *)
Inductive exn :=
| HTTPException (status_code : Z) (detail : string)
| ValueError (msg : string)
| KeyError (key : string)
| TypeError (msg : string)
| IndexError (msg : string)
| OverflowError (msg : string)
| ZeroDivisionError (msg : string)
| OtherError (msg : string).

(** A lowercase hexadecimal digit. *)
Definition hex_digit (n : nat) : ascii :=
  ascii_of_nat (if (n <? 10)%nat then 48 + n else 87 + n)%nat.

(** One character of a string's [repr], in quotes [q]: the quote and the
    backslash are escaped, tab, newline and carriage return are written
    [\t], [\n], [\r], and the other characters that are not printable
    (controls, DEL, U+0080 to U+00A0 and the soft hyphen U+00AD) are written
    [\xhh]. *)
Definition repr_char (q : ascii) (c : ascii) : string :=
  let n := nat_of_ascii c in
  if Ascii.eqb c q || Ascii.eqb c "\"%char then String "\"%char (String c "")
  else if (n =? 9)%nat then String "\"%char "t"
  else if (n =? 10)%nat then String "\"%char "n"
  else if (n =? 13)%nat then String "\"%char "r"
  else if (n <? 32)%nat || (n =? 127)%nat || ((128 <=? n)%nat && (n <=? 160)%nat)
          || (n =? 173)%nat
  then String "\"%char (String "x"%char (String (hex_digit (n / 16)%nat)
                                          (String (hex_digit (Nat.modulo n 16)) "")))
  else String c "".

(** [repr] of a [str]: in double quotes when the text has a single quote and
    no double quote, in single quotes otherwise. *)
Definition py_repr_str (s : string) : string :=
  let cs := list_ascii_of_string s in
  let q := if existsb (Ascii.eqb "'"%char) cs && negb (existsb (Ascii.eqb "034"%char) cs)
           then "034"%char else "'"%char in
  String q (String.concat "" (map (repr_char q) cs) ++ String q "").

(** [str(e)]; the [str] of a [KeyError] is the [repr] of its key. *)
Definition exn_str (e : exn) : string :=
  match e with
  | HTTPException _ d => d
  | ValueError m | TypeError m | IndexError m | OverflowError m
  | ZeroDivisionError m | OtherError m => m
  | KeyError k => py_repr_str k
  end.

Inductive result (A : Type) := Ok (a : A) | Err (e : exn).
Arguments Ok {A} a.
Arguments Err {A} e.

(** Python dict lookup on an association list (first binding wins). *)
Fixpoint lookup {A} (k : string) (l : list (string * A)) : option A :=
  match l with
  | [] => None
  | (k', v) :: l' => if String.eqb k k' then Some v else lookup k l'
  end.

Definition mem {A} (k : string) (l : list (string * A)) : bool :=
  match lookup k l with Some _ => true | None => false end.

(** [let? x := r in k]: [k x] when [r] returns [x], the exception of [r]
    otherwise. *)
Definition rbind {A B} (r : result A) (k : A -> result B) : result B :=
  match r with Ok a => k a | Err e => Err e end.

Notation "'let?' x ':=' r 'in' k" := (rbind r (fun x => k))
  (at level 200, x name, r at level 100, k at level 200).

(* ------------------------------------------------------------------ *)
(** ** Rounding *)

(** [round_half_even n d] is [n / d] rounded to the nearest integer, ties to
    the even neighbour. *)
Definition round_half_even (n d : Z) : Z :=
  let q := n / d in
  let r := n mod d in
  if 2 * r <? d then q
  else if d <? 2 * r then q + 1
  else if Z.even q then q else q + 1.

(* ------------------------------------------------------------------ *)
(** ** Python [float]: IEEE 754 binary64, rounding to nearest, ties to even

    A finite float is kept as its exact value, a reduced rational; the sign
    of a zero is not kept. *)

Inductive f64 := Fin (q : Q) | Inf (negative : bool) | NaN.

(** [qlog2 n d] is the [l] with [2^l <= n/d < 2^(l+1)], for [n, d > 0]. *)
Definition qlog2 (n d : Z) : Z :=
  let l := Z.log2 n - Z.log2 d in
  if 0 <=? l then (if n <? d * 2 ^ l then l - 1 else l)
  else (if n * 2 ^ (- l) <? d then l - 1 else l).

(** The weight of the last of the 53 significant bits of [n/d], and never
    below [2^-1074] (subnormal numbers). *)
Definition round_exp (n d : Z) : Z := Z.max (-1074) (qlog2 n d - 52).

(** [n/d] divided by [2^e], as the fraction [scale_num n e / scale_den d e]. *)
Definition scale_num (n e : Z) : Z := if 0 <=? e then n else n * 2 ^ (- e).
Definition scale_den (d e : Z) : Z := if 0 <=? e then d * 2 ^ e else d.

(** [n/d] in units of [2^e], rounded half to even. *)
Definition round_mant (n d e : Z) : Z := round_half_even (scale_num n e) (scale_den d e).

(** The double nearest to [x], ties to even: [|x|] rounded to 53
    significant bits (or to a multiple of [2^-1074]) is [v * 2^-1074]; an
    infinity when it reaches [2^1024]. *)
Definition round_binary64 (x : Q) : f64 :=
  let x := Qred x in
  let n := Qnum x in
  let d := Zpos (Qden x) in
  if n =? 0 then Fin 0 else
  let e := round_exp (Z.abs n) d in
  let v := round_mant (Z.abs n) d e * 2 ^ (e + 1074) in
  if 2 ^ 2098 <=? v then Inf (n <? 0)
  else Fin (Qred (Qmake (if n <? 0 then - v else v) (2 ^ 1074))).

(** A float literal of the source: Python reads [0.03] as the double
    nearest to 3/100. *)
Definition flit (q : Q) : f64 := round_binary64 q.

Definition qneg (q : Q) : bool := Qnum q <? 0.
Definition qzero (q : Q) : bool := Qnum q =? 0.

Definition fneg (x : f64) : f64 :=
  match x with
  | Fin a => Fin (Qred (- a))
  | Inf s => Inf (negb s)
  | NaN => NaN
  end.

(** [x * y] *)
Definition fmul (x y : f64) : f64 :=
  match x, y with
  | NaN, _ | _, NaN => NaN
  | Fin a, Fin b => round_binary64 (a * b)
  | Inf s, Fin b | Fin b, Inf s => if qzero b then NaN else Inf (xorb s (qneg b))
  | Inf s, Inf s' => Inf (xorb s s')
  end.

(** [x + y] *)
Definition fadd (x y : f64) : f64 :=
  match x, y with
  | NaN, _ | _, NaN => NaN
  | Fin a, Fin b => round_binary64 (a + b)
  | Inf s, Fin _ | Fin _, Inf s => Inf s
  | Inf s, Inf s' => if Bool.eqb s s' then Inf s else NaN
  end.

(** [x - y] *)
Definition fsub (x y : f64) : f64 := fadd x (fneg y).


(** [float(n)] of an int, also the conversion in [n * 0.75]. *)
Definition float_of_int (n : Z) : result f64 :=
  match round_binary64 (inject_Z n) with
  | Fin q => Ok (Fin q)
  | _ => Err (OverflowError "int too large to convert to float")
  end.

(** [int(x)] of a float: truncation toward zero. *)
Definition int_of_float (x : f64) : result Z :=
  match x with
  | Fin q => Ok (Z.quot (Qnum q) (Zpos (Qden q)))
  | Inf _ => Err (OverflowError "cannot convert float infinity to integer")
  | NaN => Err (ValueError "cannot convert float NaN to integer")
  end.

(** [a / b] of two ints: the double nearest to the exact quotient. *)
Definition int_truediv (a b : Z) : result f64 :=
  if b =? 0 then Err (ZeroDivisionError "division by zero")
  else match round_binary64 (inject_Z a / inject_Z b) with
       | Fin q => Ok (Fin q)
       | _ => Err (OverflowError "integer division result too large for a float")
       end.

(** [round(x, 6)] of a float: the exact value of [x] rounded half to even to
    six decimals (the correctly rounded decimal string), read back as the
    nearest double; infinities and NaN are returned as they are. *)
Definition py_round6 (x : f64) : result f64 :=
  match x with
  | Fin q =>
      match round_binary64 (Qmake (round_half_even (Qnum q * 10 ^ 6) (Zpos (Qden q)))
                                  (10 ^ 6)) with
      | Fin v => Ok (Fin v)
      | _ => Err (OverflowError "rounded value too large to represent")
      end
  | _ => Ok x
  end.

(** [x < 0] *)
Definition flt0 (x : f64) : bool :=
  match x with Fin a => qneg a | Inf s => s | NaN => false end.

(** Python's [x <= y] on floats. *)
Definition fle (x y : f64) : bool :=
  match x, y with
  | Fin a, Fin b => Qle_bool a b
  | Fin _, Inf s => negb s
  | Inf s, Fin _ => s
  | Inf s, Inf s' => s || negb s'
  | _, _ => false
  end.

(* ------------------------------------------------------------------ *)
(** ** Providers and their price tables ([llm_providers.py]) *)

Inductive provider := OpenAIProvider | GeminiProvider | ClaudeProvider.

(** A price of the table, USD per 1000 tokens, as the decimal literal of
    the source. *)
Record price := { input : Q; output : Q }.

(** [self.pricing] *)
Definition pricing (p : provider) : list (string * price) :=
  match p with
  | OpenAIProvider =>
      [ ("gpt-4",         {| input := 0.03;   output := 0.06 |});
        ("gpt-4-turbo",   {| input := 0.01;   output := 0.03 |});
        ("gpt-3.5-turbo", {| input := 0.0005; output := 0.0015 |}) ]
  | GeminiProvider =>
      [ ("gemini-pro",       {| input := 0.00025;  output := 0.0005 |});
        ("gemini-2.5-flash", {| input := 0.000075; output := 0.0003 |}) ]
  | ClaudeProvider =>
      [ ("claude-3-opus-20240229",   {| input := 0.015;   output := 0.075 |});
        ("claude-3-sonnet-20240229", {| input := 0.003;   output := 0.015 |});
        ("claude-3-haiku-20240307",  {| input := 0.00025; output := 0.00125 |}) ]
  end.

(** The model whose price [calculate_cost] falls back to. *)
Definition default_model (p : provider) : string :=
  match p with
  | OpenAIProvider => "gpt-4"
  | GeminiProvider => "gemini-pro"
  | ClaudeProvider => "claude-3-sonnet-20240229"
  end.

(** [input_tokens = int(tokens * 0.75)] *)
Definition input_tokens (tokens : Z) : result Z :=
  let? t := float_of_int tokens in int_of_float (fmul t (flit 0.75)).

(** [output_tokens = int(tokens * 0.25)] *)
Definition output_tokens (tokens : Z) : result Z :=
  let? t := float_of_int tokens in int_of_float (fmul t (flit 0.25)).

(** [XProvider.calculate_cost] (the three bodies are the same up to the
    table and the default model). *)
Definition calculate_cost (p : provider) (tokens : Z) (model : string) : result f64 :=
  let model := if mem model (pricing p) then model else default_model p in
  let pr := match lookup model (pricing p) with
            | Some pr => pr
            | None => {| input := 0; output := 0 |}
            end in
  let? input_tokens := input_tokens tokens in
  let? output_tokens := output_tokens tokens in
  let? a := int_truediv input_tokens 1000 in
  let? b := int_truediv output_tokens 1000 in
  py_round6 (fadd (fmul a (flit (input pr))) (fmul b (flit (output pr)))).


(** Python truthiness of a JSON value ([if not schema]). *)
Definition py_truthy (j : json) : bool :=
  match j with
  | JNull => false
  | JBool b => b
  | JInt z => negb (z =? 0)
  | JStr s => negb (String.eqb s "")
  | JArr l => match l with [] => false | _ => true end
  | JObj kv => match kv with [] => false | _ => true end
  end.

(** [any] of a list of fallible tests, short-circuiting like Python's
    generator-driven [any]. *)
Fixpoint any_opt {A} (f : A -> option bool) (l : list A) : option bool :=
  match l with
  | [] => Some false
  | x :: l' =>
      match f x with
      | Some true => Some true
      | Some false => any_opt f l'
      | None => None
      end
  end.

(** [list(gen)] of generators chained with [yield from]: [None] when one of
    them raises. *)
Fixpoint oconcat {A} (l : list (option (list A))) : option (list A) :=
  match l with
  | [] => Some []
  | None :: _ => None
  | Some a :: l' =>
      match oconcat l' with Some b => Some (a ++ b)%list | None => None end
  end.

(** Split a string at each occurrence of a character ([str.split]). *)
Fixpoint split_on (c : ascii) (s : string) : list string :=
  match s with
  | EmptyString => [EmptyString]
  | String a s' =>
      if Ascii.eqb a c then EmptyString :: split_on c s'
      else match split_on c s' with
           | w :: ws => String a w :: ws
           | [] => [String a EmptyString]
           end
  end.

(* ------------------------------------------------------------------ *)
(** ** jsonschema's [Draft7Validator.iter_errors] (the fragment in use)

    Keywords checked: [$ref] (which, in Draft 7, hides every keyword beside
    it), [required], [properties] and [type]; boolean schemas.  The other
    Draft 7 keywords ([enum], [minimum], [items], [additionalProperties],
    [allOf], ...), which jsonschema does enforce, are skipped here: the
    model reports a subset of jsonschema's errors, so it accepts every
    instance jsonschema accepts: what is proved for every instance it lets
    through also holds for those jsonschema lets through, while the first
    error it reports is jsonschema's first error only for schemas built
    from the keywords above.  References are resolved as local JSON
    pointers into the root schema ([#], [#/a/b]) through objects only, with
    no array index and no [~0]/[~1] unescaping; any other reference, or a
    pointer that does not resolve, raises.  The fuel stands for Python's
    recursion limit. *)

Record verror := { vpath : list string; vmessage : string }.

(** [TypeChecker.is_type] of Draft 7; [None] is [UnknownType]. *)
Definition is_type (t : string) (j : json) : option bool :=
  if String.eqb t "object" then Some (match j with JObj _ => true | _ => false end)
  else if String.eqb t "array" then Some (match j with JArr _ => true | _ => false end)
  else if String.eqb t "string" then Some (match j with JStr _ => true | _ => false end)
  else if String.eqb t "integer" then Some (match j with JInt _ => true | _ => false end)
  else if String.eqb t "number" then Some (match j with JInt _ => true | _ => false end)
  else if String.eqb t "boolean" then Some (match j with JBool _ => true | _ => false end)
  else if String.eqb t "null" then Some (match j with JNull => true | _ => false end)
  else None.

(** Keyword [type]: [ensure_list(types)], then [any(is_type ...)]. *)
Definition type_errors (types : json) (inst : json) : option (list verror) :=
  let names := match types with
               | JStr s => Some [JStr s]
               | JArr l => Some l
               | JObj kv => Some (map (fun '(k, _) => JStr k) kv)
               | _ => None
               end in
  match names with
  | None => None
  | Some l =>
      match any_opt (fun t => match t with JStr n => is_type n inst | _ => None end) l with
      | Some true => Some []
      | Some false => Some [{| vpath := []; vmessage := "is not of the expected type" |}]
      | None => None
      end
  end.

(** Keyword [required]: [for property in required: if property not in
    instance: yield ...]; only strings can be keys of the instance, and an
    unhashable element raises. *)
Definition required_errors (req : json) (inst : json) : option (list verror) :=
  match inst with
  | JObj kv =>
      let check (x : json) : option (list verror) :=
        match x with
        | JStr k =>
            Some (if mem k kv then []
                  else [{| vpath := []; vmessage := "'" ++ k ++ "' is a required property" |}])
        | JArr _ | JObj _ => None
        | _ => Some [{| vpath := []; vmessage := "is a required property" |}]
        end in
      match req with
      | JArr l => oconcat (map check l)
      | JStr s => oconcat (map (fun c => check (JStr (String c EmptyString)))
                               (list_ascii_of_string s))
      | JObj kv' => oconcat (map (fun '(k, _) => check (JStr k)) kv')
      | _ => None
      end
  | _ => Some []
  end.

(** Resolve a local reference against the root schema: each segment is a
    key of an object (array indices and the [~0]/[~1] escapes of JSON
    pointers are not modelled). *)
Fixpoint resolve_pointer (segs : list string) (j : json) : option json :=
  match segs with
  | [] => Some j
  | s :: segs' =>
      match j with
      | JObj kv => match lookup s kv with
                   | Some j' => resolve_pointer segs' j'
                   | None => None
                   end
      | _ => None
      end
  end.

Definition resolve_ref (root : json) (ref : json) : option json :=
  match ref with
  | JStr r =>
      match split_on "/"%char r with
      | "#" :: segs => resolve_pointer segs root
      | _ => None
      end
  | _ => None
  end.

(** [legacy_keywords.ignore_ref_siblings]: the [$ref] of a schema, when it
    is present and not [None]. *)
Definition schema_ref (kv : list (string * json)) : option json :=
  match lookup "$ref" kv with
  | Some JNull | None => None
  | Some r => Some r
  end.

Definition prefix_path (p : string) (e : verror) : verror :=
  {| vpath := p :: vpath e; vmessage := vmessage e |}.

Fixpoint iter_errors (fuel : nat) (root : json) (schema : json) (inst : json)
  : option (list verror) :=
  match fuel with
  | O => None
  | S fuel' =>
      match schema with
      | JBool true => Some []
      | JBool false => Some [{| vpath := []; vmessage := "False schema does not allow it" |}]
      | JObj kv =>
          match schema_ref kv with
          | Some r =>
              match resolve_ref root r with
              | Some target => iter_errors fuel' root target inst
              | None => None
              end
          | None =>
              let keyword (kw : string * json) : option (list verror) :=
                let '(k, v) := kw in
                if String.eqb k "required" then required_errors v inst
                else if String.eqb k "type" then type_errors v inst
                else if String.eqb k "properties" then
                  match inst with
                  | JObj ikv =>
                      match v with
                      | JObj props =>
                          oconcat (map (fun '(p, sub) =>
                                          match lookup p ikv with
                                          | Some x =>
                                              match iter_errors fuel' root sub x with
                                              | Some es => Some (map (prefix_path p) es)
                                              | None => None
                                              end
                                          | None => Some []
                                          end) props)
                      | _ => None
                      end
                  | _ => Some []
                  end
                else Some [] in
              oconcat (map keyword kv)
          end
      | _ => None
      end
  end.

(** Python's default recursion limit. *)
Definition recursion_limit : nat := 1000.

(* ------------------------------------------------------------------ *)
(** ** [validators.py] *)

Fixpoint join (sep : string) (l : list string) : string :=
  match l with
  | [] => ""
  | [x] => x
  | x :: l' => x ++ sep ++ join sep l'
  end.

(** [f"{path}: {error.message}"], the path being ["root"] when empty. *)
Definition error_line (e : verror) : string :=
  (match vpath e with [] => "root" | p => join "." p end) ++ ": " ++ vmessage e.

(** [key in prop_schema]: membership in a dict or a list, substring of a
    string, [TypeError] on any other value. *)
Definition py_contains (key : string) (j : json) : result bool :=
  match j with
  | JObj kv => Ok (mem key kv)
  | JArr l => Ok (existsb (fun x => match x with JStr s => String.eqb s key | _ => false end) l)
  | JStr s => Ok (match String.index 0 key s with Some _ => true | None => false end)
  | _ => Err (TypeError "argument of type is not iterable")
  end.

(** [prop_schema["default"]], once [py_contains] said yes. *)
Definition py_getitem (key : string) (j : json) : result json :=
  match j with
  | JObj kv => match lookup key kv with
               | Some v => Ok v
               | None => Err (KeyError key)
               end
  | _ => Err (TypeError "indices must be integers")
  end.

(** The enrichment loop:
    [for prop_name, prop_schema in properties.items():
       if prop_name not in enriched and "default" in prop_schema:
           enriched[prop_name] = prop_schema["default"]]
    (assigning a key that is absent appends it). *)
Fixpoint enrich (props : list (string * json)) (enriched : dict) : result dict :=
  match props with
  | [] => Ok enriched
  | (prop_name, prop_schema) :: props' =>
      if mem prop_name enriched then enrich props' enriched
      else match py_contains "default" prop_schema with
           | Err e => Err e
           | Ok false => enrich props' enriched
           | Ok true =>
               match py_getitem "default" prop_schema with
               | Err e => Err e
               | Ok d => enrich props' (enriched ++ [(prop_name, d)])%list
               end
           end
  end.

Definition validate_variables_against_schema (variables : dict) (schema : json)
  : result dict :=
  if negb (py_truthy schema) then Ok variables
  else
    match iter_errors recursion_limit schema schema (JObj variables) with
    | None => Err (OtherError "jsonschema raised while validating")
    | Some (_ :: _ as errors) =>
        Err (ValueError ("Variable validation failed:" ++ String "010"%char ""
                         ++ join (String "010"%char "") (map error_line errors)))
    | Some [] =>
        (* [schema.get("properties", {})] *)
        match schema with
        | JObj kv =>
            match lookup "properties" kv with
            | None => enrich [] variables
            | Some (JObj props) => enrich props variables
            | Some _ => Err (OtherError "properties has no items()")
            end
        | _ => Err (OtherError "schema has no get()")
        end
    end.

(** The names listed in the root [required] array of a schema. *)
Definition required_names (schema : json) : list string :=
  match schema with
  | JObj kv =>
      match lookup "required" kv with
      | Some (JArr l) => flat_map (fun x => match x with JStr k => [k] | _ => [] end) l
      | _ => []
      end
  | _ => []
  end.

(** The [$ref] at the root of a schema, if any. *)
Definition root_ref (schema : json) : option json :=
  match schema with JObj kv => schema_ref kv | _ => None end.

(** The Draft 7 schema of the C2 counterexample: a [$ref] to an empty
    definition, beside a [required] keyword that Draft 7 then ignores. *)
Definition ref_schema : json :=
  JObj [("$ref", JStr "#/definitions/any");
        ("definitions", JObj [("any", JObj [])]);
        ("required", JArr [JStr "name"])].

(* ------------------------------------------------------------------ *)
(** ** Template rendering: [str.format] with keyword arguments *)

(** [repr] of a JSON value. *)
Fixpoint py_repr (j : json) : string :=
  match j with
  | JNull => "None"
  | JBool true => "True"
  | JBool false => "False"
  | JInt z => NilZero.string_of_int (Z.to_int z)
  | JStr s => py_repr_str s
  | JArr l =>
      "[" ++ join ", " ((fix go (l : list json) : list string :=
                          match l with [] => [] | x :: l' => py_repr x :: go l' end) l) ++ "]"
  | JObj kv =>
      "{" ++ join ", " ((fix go (kv : list (string * json)) : list string :=
                           match kv with
                           | [] => []
                           | (k, x) :: kv' => (py_repr_str k ++ ": " ++ py_repr x) :: go kv'
                           end) kv) ++ "}"
  end.

(** [str] of a JSON value. *)
Definition py_str (j : json) : string :=
  match j with JStr s => s | _ => py_repr j end.

Definition is_digit (c : ascii) : bool :=
  let n := nat_of_ascii c in (48 <=? n)%nat && (n <=? 57)%nat.

(** The argument name of a replacement field: the text before the first
    [.], [[], [!] or [:]. *)
Fixpoint arg_name (cs : list ascii) : list ascii :=
  match cs with
  | [] => []
  | c :: cs' =>
      if existsb (Ascii.eqb c) ["."%char; "["%char; "!"%char; ":"%char] then []
      else c :: arg_name cs'
  end.

(** The value of a replacement field: an empty or numeric name is
    positional, and [format] got no positional argument; another name is
    looked up among the keyword arguments.  Attribute access, indexing,
    conversion and format specifications are not applied. *)
Definition field_value (field : list ascii) (vars : dict) : result string :=
  let name := arg_name field in
  if forallb is_digit name then
    Err (IndexError "Replacement index 0 out of range for positional args tuple")
  else
    match lookup (string_of_list_ascii name) vars with
    | Some v => Ok (py_str v)
    | None => Err (KeyError (string_of_list_ascii name))
    end.

(** The scanner of [str.format]: [field = Some acc] inside a replacement
    field read so far as [acc] (reversed).  A field's text runs to the first
    [}]: a nested field inside a format specification, and the conversion
    and format specification themselves, are not interpreted (see
    [field_value]). *)
Fixpoint format_aux (cs : list ascii) (field : option (list ascii)) (vars : dict)
  : result string :=
  match field with
  | Some acc =>
      match cs with
      | [] => Err (ValueError "expected '}' before end of string")
      | c :: cs' =>
          if Ascii.eqb c "}"%char then
            match field_value (rev acc) vars with
            | Err e => Err e
            | Ok v => match format_aux cs' None vars with
                      | Ok rest => Ok (v ++ rest)
                      | Err e => Err e
                      end
            end
          else format_aux cs' (Some (c :: acc)) vars
      end
  | None =>
      match cs with
      | [] => Ok ""
      | c :: cs' =>
          if Ascii.eqb c "{"%char then
            match cs' with
            | c2 :: cs'' =>
                if Ascii.eqb c2 "{"%char then
                  match format_aux cs'' None vars with
                  | Ok rest => Ok (String "{" rest)
                  | Err e => Err e
                  end
                else format_aux cs' (Some []) vars
            | [] => Err (ValueError "Single '{' encountered in format string")
            end
          else if Ascii.eqb c "}"%char then
            match cs' with
            | c2 :: cs'' =>
                if Ascii.eqb c2 "}"%char then
                  match format_aux cs'' None vars with
                  | Ok rest => Ok (String "}" rest)
                  | Err e => Err e
                  end
                else Err (ValueError "Single '}' encountered in format string")
            | [] => Err (ValueError "Single '}' encountered in format string")
            end
          else match format_aux cs' None vars with
               | Ok rest => Ok (String c rest)
               | Err e => Err e
               end
      end
  end.

Definition format (template : string) (vars : dict) : result string :=
  format_aux (list_ascii_of_string template) None vars.

(* ------------------------------------------------------------------ *)
(** ** Request, records, metrics ([schemas.py], [models.py]) *)

(** [PromptExecutionRequest]; [None] is a JSON [null]. *)
Record PromptExecutionRequest := {
  req_variables : dict;
  req_llm_provider : option string;
  req_llm_model : option string;
  req_temperature : option Q;
  req_max_tokens : option Z }.



(** [x or default] on an optional string: [None] and [""] are falsy. *)
Definition py_or (x : option string) (default : string) : string :=
  match x with
  | Some s => if String.eqb s "" then default else s
  | None => default
  end.

(** [ExpertPrompt], the columns read by [execute_prompt]. *)
Record ExpertPrompt := { template : string; variables_schema : json }.

(** [PromptExecutionHistory]; [cost] and [execution_time] are floats. *)
Record PromptExecutionHistory := {
  id : Z;
  prompt_id : Z;
  user_id : Z;
  variables : dict;
  output_text : option string;
  llm_provider : string;
  llm_model : string;
  tokens_used : json;
  cost : f64;
  execution_time : f64;
  status : string;
  error_message : option string }.

Record PromptExecutionResponse := {
  resp_execution_id : Z;
  resp_prompt_id : Z;
  resp_output : string;
  resp_llm_provider : string;
  resp_llm_model : string;
  resp_tokens_used : json;
  resp_cost : f64;
  resp_execution_time : f64;
  resp_status : string }.

(** The Prometheus series written by [execute_prompt]. *)
Inductive metric :=
| prompt_executions_total (prompt_id : Z) (llm_provider : string) (status : string)
| prompt_execution_duration (prompt_id : Z) (llm_provider : string) (duration : f64)
| llm_tokens_used (llm_provider : string) (model : string) (amount : Z)
| llm_cost_total (llm_provider : string) (model : string) (amount : f64).

Inductive gauge_op := GaugeInc | GaugeDec.

(** The process state the route touches: the [active_executions] gauge
    (its value and the operations applied to it), the ledger of
    [PromptExecutionHistory] rows, the metric samples, the requests sent to
    the vendors, and how many times [time.time()] has been read. *)
Record St := {
  active_executions : Z;
  gauge_ops : list gauge_op;
  ledger : list PromptExecutionHistory;
  samples : list metric;
  vendor_calls : list (provider * string);
  clock_reads : nat }.

(** What a vendor API call yields: generated text and the token usage it
    reports, or an exception with its message. *)
Inductive vendor_reply :=
| VendorReply (text : string) (usage : json)
| VendorFailure (msg : string).

(** The collaborators of the route: the [ExpertPrompt] table, which API
    keys are set in the environment, the vendors' answers, the authenticated
    user, the wall clock ([wall_clock n] is the time, in seconds, at the
    [n]-th reading of [time.time()]), and the ids the database assigns.  A
    new row's id is above every id in the table: SQLite takes the largest
    plus one, a PostgreSQL sequence may have skipped values (ids taken by
    rolled-back transactions, or rows deleted since); [id_gap] is the number
    of values skipped. *)
Record Env := {
  expert_prompts : Z -> option ExpertPrompt;
  api_key_set : provider -> bool;
  vendor : provider -> string -> string -> option Q -> option Z -> vendor_reply;
  current_user_id : Z;
  wall_clock : nat -> Q;
  id_gap : list PromptExecutionHistory -> nat }.

(* ------------------------------------------------------------------ *)
(** ** A state and exception monad *)

Definition M (A : Type) := St -> St * result A.

Definition ret {A} (a : A) : M A := fun s => (s, Ok a).
Definition raise {A} (e : exn) : M A := fun s => (s, Err e).
Definition bind {A B} (m : M A) (k : A -> M B) : M B :=
  fun s => match m s with
           | (s', Ok a) => k a s'
           | (s', Err e) => (s', Err e)
           end.
Definition lift {A} (r : result A) : M A := fun s => (s, r).

(** [try: m except: h] *)
Definition try_except {A} (m : M A) (h : exn -> M A) : M A :=
  fun s => match m s with
           | (s', Ok a) => (s', Ok a)
           | (s', Err e) => h e s'
           end.

(** [try: m finally: f] *)
Definition try_finally {A} (m : M A) (f : M unit) : M A :=
  fun s => match m s with
           | (s', r) => match f s' with
                        | (s'', Ok _) => (s'', r)
                        | (s'', Err e) => (s'', Err e)
                        end
           end.

Notation "x <- m ;; k" := (bind m (fun x => k))
  (at level 61, m at next level, right associativity).
Notation "m ;;; k" := (bind m (fun _ => k)) (at level 61, right associativity).

(** [time.time()]: the next reading of the wall clock, as a float. *)
Definition time (E : Env) : M f64 :=
  fun s =>
    ({| active_executions := active_executions s; gauge_ops := gauge_ops s;
        ledger := ledger s; samples := samples s; vendor_calls := vendor_calls s;
        clock_reads := S (clock_reads s) |},
     Ok (round_binary64 (wall_clock E (clock_reads s)))).

Definition modify (f : St -> St) : M unit := fun s => (f s, Ok tt).

Definition set_gauge (g : Z) (op : gauge_op) (s : St) : St :=
  {| active_executions := g; gauge_ops := (gauge_ops s ++ [op])%list;
     ledger := ledger s; samples := samples s; vendor_calls := vendor_calls s;
     clock_reads := clock_reads s |}.

Definition gauge_inc : M unit :=
  modify (fun s => set_gauge (active_executions s + 1) GaugeInc s).
Definition gauge_dec : M unit :=
  modify (fun s => set_gauge (active_executions s - 1) GaugeDec s).

(** [Counter.inc(amount)], [negative] telling whether [amount < 0]:
    Prometheus refuses a negative amount. *)
Definition counter_inc (m : metric) (negative : bool) : M unit :=
  if negative then raise (ValueError "Counters can only be incremented by non-negative amounts.")
  else modify (fun s =>
    {| active_executions := active_executions s; gauge_ops := gauge_ops s;
       ledger := ledger s; samples := (samples s ++ [m])%list;
       vendor_calls := vendor_calls s; clock_reads := clock_reads s |}).

Definition histogram_observe (m : metric) : M unit :=
  modify (fun s =>
    {| active_executions := active_executions s; gauge_ops := gauge_ops s;
       ledger := ledger s; samples := (samples s ++ [m])%list;
       vendor_calls := vendor_calls s; clock_reads := clock_reads s |}).

(** The largest id of a list of rows, 0 for none. *)
Definition max_id (l : list PromptExecutionHistory) : Z :=
  fold_right (fun r m => Z.max (id r) m) 0 l.

(** [db.add(row); db.commit()]: the database gives the row a new id. *)
Definition db_add (E : Env) (mk : Z -> PromptExecutionHistory) : M PromptExecutionHistory :=
  fun s =>
    let row := mk (max_id (ledger s) + 1 + Z.of_nat (id_gap E (ledger s))) in
    ({| active_executions := active_executions s; gauge_ops := gauge_ops s;
        ledger := (ledger s ++ [row])%list; samples := samples s;
        vendor_calls := vendor_calls s; clock_reads := clock_reads s |}, Ok row).

(* ------------------------------------------------------------------ *)
(** ** Providers at run time ([llm_providers.py]) *)

(** [LLMFactory.get_provider(name)]: an unknown name, or a provider whose
    API key is not set (its constructor raises), is a [ValueError]. *)
Definition get_provider (E : Env) (name : string) : result provider :=
  let build p key :=
    if api_key_set E p then Ok p
    else Err (ValueError (key ++ " environment variable not set")) in
  if String.eqb name "openai" then build OpenAIProvider "OPENAI_API_KEY"
  else if String.eqb name "gemini" then build GeminiProvider "GEMINI_API_KEY"
  else if String.eqb name "claude" then build ClaudeProvider "ANTHROPIC_API_KEY"
  else Err (ValueError ("Unknown LLM provider: " ++ name
                        ++ ". Available providers: openai, gemini, claude")).

(** The separators of [str.split()] among the characters U+0000 to U+00FF:
    [\t], [\n], [\v], [\f], [\r], U+001C to U+001F, the space, U+0085
    and U+00A0. *)
Definition is_space (c : ascii) : bool :=
  existsb (Ascii.eqb c) ["009"%char; "010"%char; "011"%char; "012"%char; "013"%char;
                         "028"%char; "029"%char; "030"%char; "031"%char; " "%char;
                         "133"%char; "160"%char].

(** [len(s.split())] *)
Fixpoint count_words (cs : list ascii) (in_word : bool) : nat :=
  match cs with
  | [] => 0
  | c :: cs' =>
      if is_space c then count_words cs' false
      else if in_word then count_words cs' true
      else S (count_words cs' true)
  end.

Definition words (s : string) : nat := count_words (list_ascii_of_string s) false.

(** The [tokens_used] an [execute] returns: the vendor's usage for OpenAI
    ([usage.total_tokens]) and Claude ([input_tokens + output_tokens]), the
    word count of prompt and answer for Gemini. *)
Definition reported_tokens (p : provider) (prompt text : string) (usage : json) : json :=
  match p with
  | GeminiProvider => JInt (Z.of_nat (words prompt + words text))
  | _ => usage
  end.

(** [provider.execute(prompt, model, temperature, max_tokens)]: one vendor
    request; OpenAI and Claude report the vendor's usage, Gemini counts the
    words of the prompt and the answer. *)
Definition execute (E : Env) (p : provider) (prompt : string) (model : string)
  (temperature : option Q) (max_tokens : option Z) : M (string * json) :=
  fun s =>
    let s' := {| active_executions := active_executions s; gauge_ops := gauge_ops s;
                 ledger := ledger s; samples := samples s;
                 vendor_calls := (vendor_calls s ++ [(p, model)])%list;
                 clock_reads := clock_reads s |} in
    match vendor E p prompt model temperature max_tokens with
    | VendorFailure msg => (s', Err (OtherError msg))
    | VendorReply text usage => (s', Ok (text, reported_tokens p prompt text usage))
    end.

(** A Python number read as an integer ([bool] is an [int]). *)
Definition py_int (j : json) : option Z :=
  match j with
  | JInt n => Some n
  | JBool b => Some (if b then 1 else 0)
  | _ => None
  end.

(** [provider.calculate_cost(tokens=..., model=...)] on the value the
    provider returned as [tokens_used]. *)
Definition calculate_cost_py (p : provider) (tokens : json) (model : string) : result f64 :=
  match py_int tokens with
  | Some t => calculate_cost p t model
  | None => Err (TypeError "unsupported operand type(s) for *: 'float'")
  end.

(* ------------------------------------------------------------------ *)
(** ** The route [execute_prompt] ([main.py]) *)

(** [except ValueError as e: raise HTTPException(400, str(e))] *)
Definition value_error_to_400 {A} (m : M A) : M A :=
  try_except m (fun e => match e with
                         | ValueError _ => raise (HTTPException 400 (exn_str e))
                         | _ => raise e
                         end).

(** [except KeyError as e: raise HTTPException(400, f"Missing variable ...")] *)
Definition key_error_to_400 {A} (m : M A) : M A :=
  try_except m (fun e => match e with
                         | KeyError _ =>
                             raise (HTTPException 400 ("Missing variable in template: " ++ exn_str e))
                         | _ => raise e
                         end).

(** The body of the [try] block. *)
Definition execute_prompt_try (E : Env) (pid : Z) (req : PromptExecutionRequest)
  (start_time : f64) : M PromptExecutionResponse :=
  prompt <- (match expert_prompts E pid with
             | Some p => ret p
             | None => raise (HTTPException 404 "Expert prompt not found")
             end) ;;
  validated_variables <- value_error_to_400
    (lift (validate_variables_against_schema (req_variables req) (variables_schema prompt))) ;;
  let llm_provider_name := py_or (req_llm_provider req) "openai" in
  let llm_model_name := py_or (req_llm_model req) "gpt-4" in
  llm <- value_error_to_400 (lift (get_provider E llm_provider_name)) ;;
  filled_prompt <- key_error_to_400 (lift (format (template prompt) validated_variables)) ;;
  execution_result <- execute E llm filled_prompt llm_model_name
                        (req_temperature req) (req_max_tokens req) ;;
  let '(out, tokens) := execution_result in
  c <- lift (calculate_cost_py llm tokens llm_model_name) ;;
  now <- time E ;;
  let duration := fsub now start_time in
  counter_inc (prompt_executions_total pid llm_provider_name "success") false ;;;
  histogram_observe (prompt_execution_duration pid llm_provider_name duration) ;;;
  (* [llm_tokens_used...inc(tokens_used)]; [calculate_cost] has accepted
     [tokens], so it is a number here *)
  n <- lift (match py_int tokens with
             | Some n => Ok n
             | None => Err (TypeError "not a number")
             end) ;;
  counter_inc (llm_tokens_used llm_provider_name llm_model_name n) (n <? 0) ;;;
  counter_inc (llm_cost_total llm_provider_name llm_model_name c) (flt0 c) ;;;
  row <- db_add E (fun i =>
    {| id := i; prompt_id := pid; user_id := current_user_id E;
       variables := validated_variables; output_text := Some out;
       llm_provider := llm_provider_name; llm_model := llm_model_name;
       tokens_used := tokens; cost := c; execution_time := duration;
       status := "success"; error_message := None |}) ;;
  ret {| resp_execution_id := id row; resp_prompt_id := pid; resp_output := out;
         resp_llm_provider := llm_provider_name; resp_llm_model := llm_model_name;
         resp_tokens_used := tokens; resp_cost := c; resp_execution_time := duration;
         resp_status := "success" |}.

(** [except HTTPException: raise] and [except Exception as e: ...]. *)
Definition execute_prompt_except (E : Env) (pid : Z) (req : PromptExecutionRequest)
  (start_time : f64) (e : exn) : M PromptExecutionResponse :=
  match e with
  | HTTPException _ _ => raise e
  | _ =>
      counter_inc (prompt_executions_total pid (py_or (req_llm_provider req) "unknown") "error") false ;;;
      now <- time E ;;
      _ <- db_add E (fun i =>
        {| id := i; prompt_id := pid; user_id := current_user_id E;
           variables := req_variables req; output_text := None;
           llm_provider := py_or (req_llm_provider req) "unknown";
           llm_model := py_or (req_llm_model req) "unknown";
           tokens_used := JInt 0; cost := Fin 0; execution_time := fsub now start_time;
           status := "error"; error_message := Some (exn_str e) |}) ;;
      raise (HTTPException 500 ("Execution failed: " ++ exn_str e))
  end.

Definition execute_prompt (E : Env) (pid : Z) (req : PromptExecutionRequest)
  : M PromptExecutionResponse :=
  gauge_inc ;;;
  start_time <- time E ;;
  try_finally
    (try_except (execute_prompt_try E pid req start_time)
                (execute_prompt_except E pid req start_time))
    gauge_dec.

(* ------------------------------------------------------------------ *)
(** ** Concrete runs *)

(** The schema of the spec's scenario: [tone] defaults to ["formal"]. *)
Definition schema_tone : json :=
  JObj [("properties", JObj [("tone", JObj [("type", JStr "string");
                                            ("default", JStr "formal")])]);
        ("required", JArr [])].

Definition prompt_tone : ExpertPrompt :=
  {| template := "Answer in a {tone} tone."; variables_schema := schema_tone |}.

(** A clock read every 3 seconds from [t = 100]. *)
Definition clock3 (n : nat) : Q := inject_Z (100 + 3 * Z.of_nat n).

(** Prompt 1 exists, every API key is set, the vendors answer with [reply],
    and the database skips no id. *)
Definition env_with (reply : vendor_reply) : Env :=
  {| expert_prompts := fun pid => if pid =? 1 then Some prompt_tone else None;
     api_key_set := fun _ => true;
     vendor := fun _ _ _ _ _ => reply;
     current_user_id := 7;
     wall_clock := clock3;
     id_gap := fun _ => O |}.

Definition st0 : St :=
  {| active_executions := 0; gauge_ops := []; ledger := []; samples := [];
     vendor_calls := []; clock_reads := O |}.

Definition req_of (vars : dict) : PromptExecutionRequest :=
  {| req_variables := vars; req_llm_provider := Some "openai";
     req_llm_model := Some "gpt-4"; req_temperature := Some (Qmake 7 10);
     req_max_tokens := None |}.

(* ------------------------------------------------------------------ *)
(** ** Predicates on runs of the route *)

(** [m] leaves the gauge, and the list of operations on it, unchanged. *)
Definition gauge_frame {A} (m : M A) : Prop :=
  forall s, active_executions (fst (m s)) = active_executions s /\
            gauge_ops (fst (m s)) = gauge_ops s.

(** The exception raised at the vendor call or at the cost computation. *)
Definition dispatch_raises (E : Env) (p : provider) (filled model : string)
  (req : PromptExecutionRequest) (e : exn) : Prop :=
  (exists msg, vendor E p filled model (req_temperature req) (req_max_tokens req)
               = VendorFailure msg /\ e = OtherError msg) \/
  (exists text usage,
      vendor E p filled model (req_temperature req) (req_max_tokens req)
      = VendorReply text usage /\
      calculate_cost_py p (reported_tokens p filled text usage) model = Err e).




(* ------------------------------------------------------------------ *)
(** ** More of [validators.py] *)

(** [d[k] = v] on a dict: a key already present keeps its place and gets
    the new value, a new key is appended. *)
Fixpoint dict_set (k : string) (v : json) (d : dict) : dict :=
  match d with
  | [] => [(k, v)]
  | (k', v') :: d' => if String.eqb k k' then (k', v) :: d' else (k', v') :: dict_set k v d'
  end.

(** [x[0]] on a JSON value: the first element of a list, the first
    character of a string; a dict has no key [0] (its keys are strings), any
    other value is not subscriptable. *)
Definition py_index0 (j : json) : result json :=
  match j with
  | JArr (x :: _) => Ok x
  | JArr [] => Err (IndexError "list index out of range")
  | JStr (String c _) => Ok (JStr (String c EmptyString))
  | JStr EmptyString => Err (IndexError "string index out of range")
  | JObj _ => Err (KeyError "0")
  | _ => Err (TypeError "object is not subscriptable")
  end.

(** [prop_schema.get(key, default)]: only a dict has [get]. *)
Definition py_get (key : string) (default : json) (j : json) : result json :=
  match j with
  | JObj kv => Ok (match lookup key kv with Some v => v | None => default end)
  | _ => Err (OtherError "object has no attribute 'get'")
  end.

(** The body of the loop of [generate_example_variables] for one property:
    the value assigned to [examples[prop_name]], [None] when no branch
    assigns. *)
Definition example_value (prop_name : string) (prop_schema : json) : result (option json) :=
  match py_contains "example" prop_schema with
  | Err e => Err e
  | Ok true =>
      match py_getitem "example" prop_schema with
      | Ok v => Ok (Some v)
      | Err e => Err e
      end
  | Ok false =>
      match py_contains "default" prop_schema with
      | Err e => Err e
      | Ok true =>
          match py_getitem "default" prop_schema with
          | Ok v => Ok (Some v)
          | Err e => Err e
          end
      | Ok false =>
          (* ["enum" in prop_schema and prop_schema["enum"]] *)
          let has_enum :=
            match py_contains "enum" prop_schema with
            | Err e => Err e
            | Ok false => Ok false
            | Ok true =>
                match py_getitem "enum" prop_schema with
                | Ok en => Ok (py_truthy en)
                | Err e => Err e
                end
            end in
          match has_enum with
          | Err e => Err e
          | Ok true =>
              match py_getitem "enum" prop_schema with
              | Ok en => match py_index0 en with
                         | Ok v => Ok (Some v)
                         | Err e => Err e
                         end
              | Err e => Err e
              end
          | Ok false =>
              match py_get "type" (JStr "string") prop_schema with
              | Err e => Err e
              | Ok prop_type =>
                  match prop_type with
                  | JStr t =>
                      if String.eqb t "string" then Ok (Some (JStr ("example_" ++ prop_name)))
                      else if String.eqb t "number" || String.eqb t "integer" then Ok (Some (JInt 0))
                      else if String.eqb t "boolean" then Ok (Some (JBool false))
                      else if String.eqb t "array" then Ok (Some (JArr []))
                      else if String.eqb t "object" then Ok (Some (JObj []))
                      else Ok None
                  | _ => Ok None
                  end
              end
          end
      end
  end.

(** [for prop_name, prop_schema in properties.items(): ...] *)
Fixpoint generate_loop (props : list (string * json)) (examples : dict) : result dict :=
  match props with
  | [] => Ok examples
  | (prop_name, prop_schema) :: props' =>
      match example_value prop_name prop_schema with
      | Err e => Err e
      | Ok None => generate_loop props' examples
      | Ok (Some v) => generate_loop props' (dict_set prop_name v examples)
      end
  end.

Definition generate_example_variables (schema : json) : result dict :=
  match schema with
  | JObj kv =>
      match lookup "properties" kv with
      | None => generate_loop [] []
      | Some (JObj props) => generate_loop props []
      | Some _ => Err (OtherError "properties has no items()")
      end
  | _ => Err (OtherError "schema has no get()")
  end.

(** [schema.get("required", [])] *)
Definition get_required_variables (schema : json) : result json :=
  py_get "required" (JArr []) schema.

(** [get_variable_description]: [properties = schema.get("properties", {})],
    then [properties[variable_name].get("description", "")] when
    [variable_name in properties], [""] otherwise. *)
Definition get_variable_description (schema : json) (variable_name : string) : result json :=
  match py_get "properties" (JObj []) schema with
  | Err e => Err e
  | Ok properties =>
      match py_contains variable_name properties with
      | Err e => Err e
      | Ok true =>
          match py_getitem variable_name properties with
          | Ok prop => py_get "description" (JStr "") prop
          | Err e => Err e
          end
      | Ok false => Ok (JStr "")
      end
  end.

(* ------------------------------------------------------------------ *)
(** ** [LLMFactory] ([llm_providers.py]) *)

(** The keys of [LLMFactory._providers], in their order. *)
Definition list_providers : list string := ["openai"; "gemini"; "claude"].

(** The key of each provider class in [LLMFactory._providers]. *)
Definition provider_name (p : provider) : string :=
  match p with
  | OpenAIProvider => "openai"
  | GeminiProvider => "gemini"
  | ClaudeProvider => "claude"
  end.

(* ------------------------------------------------------------------ *)
(** ** [get_execution_history] and [get_execution] ([main.py]) *)

(** [ORDER BY created_at DESC]: insertion into a list sorted by decreasing
    [key]; rows with equal keys keep the order of the table (SQL leaves
    that order open). *)
Fixpoint insert_desc {A} (key : A -> Z) (x : A) (l : list A) : list A :=
  match l with
  | [] => [x]
  | y :: l' => if key y <? key x then x :: l else y :: insert_desc key x l'
  end.

Definition sort_desc {A} (key : A -> Z) (l : list A) : list A :=
  fold_left (fun acc x => insert_desc key x acc) l [].

(** [.offset(skip).limit(limit)] as SQLite, the default database, runs
    them: a negative offset is 0, a negative limit is no limit. *)
Definition sql_offset {A} (skip : Z) (l : list A) : list A := skipn (Z.to_nat skip) l.
Definition sql_limit {A} (limit : Z) (l : list A) : list A :=
  if limit <? 0 then l else firstn (Z.to_nat limit) l.

(** [if prompt_id:] and [if status:] on optional filters: [None], [0] and
    [""] are falsy. *)
Definition int_filter (x : option Z) : option Z :=
  match x with Some n => if n =? 0 then None else Some n | None => None end.
Definition str_filter (x : option string) : option string :=
  match x with Some s => if String.eqb s "" then None else Some s | None => None end.

(** [get_execution_history]; [created_at] is the value of the
    [created_at] column of each row. *)
Definition get_execution_history (created_at : PromptExecutionHistory -> Z)
  (E : Env) (s : St) (skip limit : Z) (pid : option Z) (st : option string)
  : list PromptExecutionHistory :=
  let q := filter (fun r => user_id r =? current_user_id E) (ledger s) in
  let q := match int_filter pid with
           | Some p => filter (fun r => prompt_id r =? p) q
           | None => q
           end in
  let q := match str_filter st with
           | Some x => filter (fun r => String.eqb (status r) x) q
           | None => q
           end in
  sql_limit limit (sql_offset skip (sort_desc created_at q)).

(** [get_execution]: the first row with that id and the current user. *)
Definition get_execution (E : Env) (s : St) (execution_id : Z)
  : result PromptExecutionHistory :=
  match find (fun r => (id r =? execution_id) && (user_id r =? current_user_id E)) (ledger s) with
  | Some r => Ok r
  | None => Err (HTTPException 404 "Execution not found")
  end.

(** The ids of the ledger's rows increase strictly along the table. *)
Fixpoint ids_increasing (l : list PromptExecutionHistory) : bool :=
  match l with
  | r :: ((r' :: _) as t) => (id r <? id r') && ids_increasing t
  | _ => true
  end.

(* ------------------------------------------------------------------ *)
(** ** Templates for [str.format] *)

(** A text with its braces doubled, which [str.format] renders back to the
    text. *)
Fixpoint escape_braces (cs : list ascii) : list ascii :=
  match cs with
  | [] => []
  | c :: cs' =>
      if Ascii.eqb c "{"%char then "{"%char :: "{"%char :: escape_braces cs'
      else if Ascii.eqb c "}"%char then "}"%char :: "}"%char :: escape_braces cs'
      else c :: escape_braces cs'
  end.

(** A plain keyword field name: not all digits, and none of [.], [[], [!],
    [:], [{], [}]. *)
Definition plain_field_name (k : string) : bool :=
  negb (forallb is_digit (list_ascii_of_string k)) &&
  forallb (fun c => negb (existsb (Ascii.eqb c)
                            ["."%char; "["%char; "!"%char; ":"%char; "{"%char; "}"%char]))
          (list_ascii_of_string k).

(** The template [a{k}b] with the texts [a] and [b] escaped. *)
Definition field_template (a k b : string) : string :=
  string_of_list_ascii
    (escape_braces (list_ascii_of_string a) ++ ["{"%char] ++ list_ascii_of_string k
     ++ ["}"%char] ++ escape_braces (list_ascii_of_string b)).

(** A schema declaring each [(name, type)] of [decl] as a property
    [{"type": type}] and requiring the names of [req]. *)
Definition typed_schema (decl : list (string * string)) (req : list string) : json :=
  JObj [("properties", JObj (map (fun '(n, t) => (n, JObj [("type", JStr t)])) decl));
        ("required", JArr (map JStr req))].

(** The types [generate_example_variables] has an example for. *)
Definition example_types : list string :=
  ["string"; "number"; "integer"; "boolean"; "array"; "object"].

(** Properties with neither example, default, enum nor a known type. *)
Definition props_mixed : list (string * json) :=
  [("note", JObj [("description", JStr "a note")]); ("when", JObj [("type", JStr "date")])].

(* ------------------------------------------------------------------ *)
(** ** More concrete runs *)

(** The request for one prompt with the given provider name. *)
Definition req_provider (name : string) : PromptExecutionRequest :=
  {| req_variables := []; req_llm_provider := Some name;
     req_llm_model := Some "gpt-4"; req_temperature := Some (Qmake 7 10);
     req_max_tokens := None |}.

(** A prompt whose template names [name] and whose schema is empty. *)
Definition env_template (tpl : string) : Env :=
  {| expert_prompts := fun _ => Some {| template := tpl; variables_schema := JObj [] |};
     api_key_set := fun _ => true;
     vendor := fun _ _ _ _ _ => VendorReply "ok" (JInt 10);
     current_user_id := 7;
     wall_clock := clock3;
     id_gap := fun _ => O |}.

(** A prompt whose schema declares a property with a non-dict schema. *)
Definition env_bad_schema : Env :=
  {| expert_prompts := fun _ => Some {| template := "Hi";
                                        variables_schema :=
                                          JObj [("properties", JObj [("tone", JInt 5)])] |};
     api_key_set := fun _ => true;
     vendor := fun _ _ _ _ _ => VendorReply "ok" (JInt 10);
     current_user_id := 7;
     wall_clock := clock3;
     id_gap := fun _ => O |}.

(** The response of the successful run of [env_with]. *)
Definition resp_fine : PromptExecutionResponse :=
  {| resp_execution_id := 1; resp_prompt_id := 1; resp_output := "fine";
     resp_llm_provider := "openai"; resp_llm_model := "gpt-4";
     resp_tokens_used := JInt 1000; resp_cost := flit 0.0375; resp_execution_time := Fin 3;
     resp_status := "success" |}.

(** A row of the ledger with the given id, user, prompt and status. *)
Definition row_of (i uid pid : Z) (st : string) : PromptExecutionHistory :=
  {| id := i; prompt_id := pid; user_id := uid; variables := []; output_text := None;
     llm_provider := "openai"; llm_model := "gpt-4"; tokens_used := JInt 0; cost := Fin 0;
     execution_time := Fin 1; status := st; error_message := None |}.

(** A ledger with rows of user 7 (ids 1 and 3) and of user 8 (id 2). *)
Definition st_two_users : St :=
  {| active_executions := 0; gauge_ops := [];
     ledger := [row_of 1 7 1 "success"; row_of 2 8 1 "success"; row_of 3 7 2 "error"];
     samples := []; vendor_calls := []; clock_reads := O |}.

(* ================================================================== *)
(** * Proofs *)

(** ** Costs *)

Lemma round_half_even_near (n d : Z) :
  0 < d -> 2 * d * round_half_even n d - d <= 2 * n <= 2 * d * round_half_even n d + d.
Proof.
  intros Hd. unfold round_half_even.
  pose proof (Z.div_mod n d ltac:(lia)) as Hn.
  pose proof (Z.mod_pos_bound n d Hd) as Hr.
  set (q := n / d) in *. set (r := n mod d) in *.
  destruct (2 * r <? d) eqn:E1; [apply Z.ltb_lt in E1 | apply Z.ltb_ge in E1].
  - nia.
  - destruct (d <? 2 * r) eqn:E2; [apply Z.ltb_lt in E2 | apply Z.ltb_ge in E2].
    + nia.
    + destruct (Z.even q); nia.
Qed.

Lemma round_half_even_tie (n d : Z) :
  0 < d -> (2 * n = 2 * d * round_half_even n d - d \/ 2 * n = 2 * d * round_half_even n d + d) ->
  Z.even (round_half_even n d) = true.
Proof.
  intros Hd. unfold round_half_even.
  pose proof (Z.div_mod n d ltac:(lia)) as Hn.
  pose proof (Z.mod_pos_bound n d Hd) as Hr.
  set (q := n / d) in *. set (r := n mod d) in *.
  destruct (2 * r <? d) eqn:E1; [apply Z.ltb_lt in E1 | apply Z.ltb_ge in E1].
  - intros [H|H]; nia.
  - destruct (d <? 2 * r) eqn:E2; [apply Z.ltb_lt in E2 | apply Z.ltb_ge in E2].
    + intros [H|H]; nia.
    + destruct (Z.even q) eqn:Eq; [auto|].
      intros _. rewrite Z.even_add, Eq. reflexivity.
Qed.

(** Rounding is monotone in the rational [n / d]. *)
Lemma round_half_even_mono_cross (n1 d1 n2 d2 : Z) :
  0 < d1 -> 0 < d2 -> n1 * d2 <= n2 * d1 ->
  round_half_even n1 d1 <= round_half_even n2 d2.
Proof.
  intros H1 H2 Hle.
  pose proof (round_half_even_near n1 d1 H1) as A.
  pose proof (round_half_even_near n2 d2 H2) as B.
  set (m1 := round_half_even n1 d1) in *. set (m2 := round_half_even n2 d2) in *.
  destruct (Z.le_gt_cases m1 m2) as [|Hgt]; [assumption|exfalso].
  assert (S1 : 2 * n2 * d1 <= (2 * d2 * m2 + d2) * d1) by nia.
  assert (S2 : (2 * d2 * m2 + d2) * d1 <= (2 * d1 * m1 - d1) * d2) by nia.
  assert (S3 : (2 * d1 * m1 - d1) * d2 <= 2 * n1 * d2) by nia.
  assert (S4 : 2 * n1 * d2 <= 2 * n2 * d1) by nia.
  assert (Ht1 : 2 * n1 = 2 * d1 * m1 - d1).
  { apply (Z.mul_reg_r _ _ d2); [lia|]. lia. }
  assert (Ht2 : 2 * n2 = 2 * d2 * m2 + d2).
  { apply (Z.mul_reg_r _ _ d1); [lia|]. lia. }
  assert (E : (2 * m2 + 1) * (d1 * d2) = (2 * m1 - 1) * (d1 * d2)) by lia.
  apply Z.mul_reg_r in E; [|nia].
  assert (Hm : m1 = m2 + 1) by lia.
  pose proof (round_half_even_tie n1 d1 H1 (or_introl Ht1)) as T1.
  pose proof (round_half_even_tie n2 d2 H2 (or_intror Ht2)) as T2.
  fold m1 in T1. fold m2 in T2.
  rewrite Hm, Z.even_add, T2 in T1. discriminate.
Qed.


Lemma round_half_even_le (n d k : Z) : 0 < d -> n < k * d -> round_half_even n d <= k.
Proof. intros Hd H. pose proof (round_half_even_near n d Hd). nia. Qed.

Lemma round_half_even_ge (n d k : Z) : 0 < d -> k * d <= n -> k <= round_half_even n d.
Proof. intros Hd H. pose proof (round_half_even_near n d Hd). nia. Qed.

Lemma round_half_even_nonneg (n d : Z) : 0 < d -> 0 <= n -> 0 <= round_half_even n d.
Proof. intros Hd Hn. apply (round_half_even_ge n d 0); lia. Qed.

Lemma pow2_add (a b : Z) : 0 <= a -> 0 <= b -> 2 ^ (a + b) = 2 ^ a * 2 ^ b.
Proof. intros. apply Z.pow_add_r; lia. Qed.

Lemma scale_den_pos (d e : Z) : 0 < d -> 0 < scale_den d e.
Proof.
  intros Hd. unfold scale_den. destruct (0 <=? e) eqn:E; [apply Z.leb_le in E|lia].
  pose proof (Z.pow_pos_nonneg 2 e ltac:(lia) E). nia.
Qed.

Lemma scale_num_pos (n e : Z) : 0 < n -> 0 < scale_num n e.
Proof.
  intros Hn. unfold scale_num. destruct (0 <=? e) eqn:E; [lia|apply Z.leb_gt in E].
  pose proof (Z.pow_pos_nonneg 2 (- e) ltac:(lia) ltac:(lia)). nia.
Qed.

Lemma scale_num_nonneg (n e : Z) : 0 <= n -> 0 <= scale_num n e.
Proof.
  intros Hn. unfold scale_num. destruct (0 <=? e) eqn:E; [lia|apply Z.leb_gt in E].
  pose proof (Z.pow_pos_nonneg 2 (- e) ltac:(lia) ltac:(lia)). nia.
Qed.

(** Changing the unit from [2^f] to [2^e]. *)
Lemma scale_shift (n d e f : Z) :
  e <= f ->
  scale_num n e * scale_den d f = 2 ^ (f - e) * (scale_num n f * scale_den d e).
Proof.
  intros Hef. unfold scale_num, scale_den.
  destruct (Z.leb_spec 0 e); destruct (Z.leb_spec 0 f); try lia.
  - replace f with ((f - e) + e) at 1 by lia. rewrite pow2_add by lia. ring.
  - replace (f - e) with (f + - e) by lia. rewrite pow2_add by lia. ring.
  - replace (- e) with ((f - e) + - f) by lia. rewrite pow2_add by lia. ring.
Qed.

Lemma scale_cross (n1 d1 n2 d2 e : Z) :
  n1 * d2 <= n2 * d1 ->
  scale_num n1 e * scale_den d2 e <= scale_num n2 e * scale_den d1 e.
Proof.
  intros H. unfold scale_num, scale_den.
  destruct (0 <=? e) eqn:E; [apply Z.leb_le in E|apply Z.leb_gt in E].
  - pose proof (Z.pow_pos_nonneg 2 e ltac:(lia) E). nia.
  - pose proof (Z.pow_pos_nonneg 2 (- e) ltac:(lia) ltac:(lia)). nia.
Qed.

(** [2^k <= n/d] seen in units of [2^e <= 2^k]. *)
Lemma scale_ge (n d k e : Z) :
  0 < d -> e <= k -> scale_den d k <= scale_num n k ->
  2 ^ (k - e) * scale_den d e <= scale_num n e.
Proof.
  intros Hd Hek H.
  pose proof (scale_shift n d e k Hek) as S.
  pose proof (scale_den_pos d k Hd). pose proof (scale_den_pos d e Hd).
  pose proof (Z.pow_pos_nonneg 2 (k - e) ltac:(lia) ltac:(lia)).
  apply (Z.mul_le_mono_pos_r _ _ (scale_den d k)); [lia|]. nia.
Qed.

Lemma scale_lt (n d k e : Z) :
  0 < d -> e <= k -> scale_num n k < scale_den d k ->
  scale_num n e < 2 ^ (k - e) * scale_den d e.
Proof.
  intros Hd Hek H.
  pose proof (scale_shift n d e k Hek) as S.
  pose proof (scale_den_pos d k Hd). pose proof (scale_den_pos d e Hd).
  pose proof (Z.pow_pos_nonneg 2 (k - e) ltac:(lia) ltac:(lia)).
  apply (Z.mul_lt_mono_pos_r (scale_den d k)); [lia|]. nia.
Qed.

Lemma qlog2_spec (n d : Z) :
  0 < n -> 0 < d ->
  scale_den d (qlog2 n d) <= scale_num n (qlog2 n d) /\
  scale_num n (qlog2 n d + 1) < scale_den d (qlog2 n d + 1).
Proof.
  intros Hn Hd.
  pose proof (Z.log2_spec n Hn) as [N1 N2].
  pose proof (Z.log2_spec d Hd) as [D1 D2].
  pose proof (Z.log2_nonneg n). pose proof (Z.log2_nonneg d).
  set (a := Z.log2 n) in *. set (b := Z.log2 d) in *.
  rewrite Z.pow_succ_r in N2, D2 by lia.
  unfold qlog2, scale_num, scale_den. fold a b.
  destruct (0 <=? a - b) eqn:L; [apply Z.leb_le in L|apply Z.leb_gt in L].
  - assert (Pa : 2 ^ a = 2 ^ (a - b) * 2 ^ b).
    { rewrite <- Z.pow_add_r by lia. f_equal. lia. }
    pose proof (Z.pow_pos_nonneg 2 (a - b) ltac:(lia) L).
    destruct (n <? d * 2 ^ (a - b)) eqn:C; [apply Z.ltb_lt in C|apply Z.ltb_ge in C].
    + destruct (Z.eq_dec (a - b) 0) as [Z0|Z0].
      * assert (Eab : 2 ^ a = 2 ^ b) by (f_equal; lia).
        rewrite Z0 in *. simpl. change (Z.pow_pos 2 1) with 2. rewrite Z.mul_1_r in C. nia.
      * assert (Pl : 2 ^ (a - b) = 2 * 2 ^ (a - b - 1)).
        { rewrite <- Z.pow_succ_r by lia. f_equal. lia. }
        pose proof (Z.pow_pos_nonneg 2 (a - b - 1) ltac:(lia) ltac:(lia)).
        replace (0 <=? a - b - 1) with true by (symmetry; apply Z.leb_le; lia).
        replace (0 <=? a - b - 1 + 1) with true by (symmetry; apply Z.leb_le; lia).
        replace (a - b - 1 + 1) with (a - b) by lia. nia.
    + replace (0 <=? a - b + 1) with true by (symmetry; apply Z.leb_le; lia).
      rewrite Z.pow_add_r by lia. rewrite (proj2 (Z.leb_le _ _) L).
      change (2 ^ 1) with 2. nia.
  - assert (Pb : 2 ^ b = 2 ^ a * 2 ^ (- (a - b))).
    { rewrite <- Z.pow_add_r by lia. f_equal. lia. }
    pose proof (Z.pow_pos_nonneg 2 (- (a - b)) ltac:(lia) ltac:(lia)).
    destruct (n * 2 ^ (- (a - b)) <? d) eqn:C; [apply Z.ltb_lt in C|apply Z.ltb_ge in C].
    + replace (0 <=? a - b - 1) with false by (symmetry; apply Z.leb_gt; lia).
      replace (0 <=? a - b - 1 + 1) with false by (symmetry; apply Z.leb_gt; lia).
      replace (- (a - b - 1 + 1)) with (- (a - b)) by lia.
      replace (- (a - b - 1)) with (- (a - b) + 1) by lia.
      rewrite Z.pow_add_r by lia. simpl (2 ^ 1). nia.
    + destruct (Z.eq_dec (a - b + 1) 0) as [Z0|Z0].
      * rewrite Z0. replace (- (a - b)) with 1 in * by lia. change (2 ^ 1) with 2 in *.
        rewrite (proj2 (Z.leb_gt _ _) L). change (2 ^ 0) with 1. replace (0 <=? 0) with true by reflexivity. split; lia.
      * replace (0 <=? a - b + 1) with false by (symmetry; apply Z.leb_gt; lia).
        assert (Pc : 2 ^ (- (a - b)) = 2 * 2 ^ (- (a - b + 1))).
        { rewrite <- Z.pow_succ_r by lia. f_equal. lia. }
        pose proof (Z.pow_pos_nonneg 2 (- (a - b + 1)) ltac:(lia) ltac:(lia)).
        rewrite (proj2 (Z.leb_gt _ _) L). split; [lia|].
        assert (n * 2 ^ (- (a - b + 1)) < 2 * 2 ^ a * 2 ^ (- (a - b + 1))) by nia.
        nia.
Qed.

Lemma scale_lt_down (n d k e : Z) :
  0 < d -> k <= e -> scale_num n k < scale_den d k -> scale_num n e < scale_den d e.
Proof.
  intros Hd Hke H.
  pose proof (scale_shift n d k e Hke) as S.
  pose proof (scale_den_pos d k Hd). pose proof (scale_den_pos d e Hd).
  pose proof (Z.pow_pos_nonneg 2 (e - k) ltac:(lia) ltac:(lia)).
  assert (scale_num n e * scale_den d k * 2 ^ (e - k) < scale_den d e * scale_den d k) by nia.
  destruct (Z.le_gt_cases 0 (scale_num n e)); [|nia].
  assert (scale_num n e * scale_den d k <= scale_num n e * scale_den d k * 2 ^ (e - k)) by nia.
  nia.
Qed.

Lemma round_exp_ge (n d : Z) : -1074 <= round_exp n d.
Proof. unfold round_exp. lia. Qed.

(** The rounded significand has at most 53 bits. *)
Lemma round_mant_le (n d : Z) :
  0 < n -> 0 < d -> round_mant n d (round_exp n d) <= 2 ^ 53.
Proof.
  intros Hn Hd. unfold round_mant.
  pose proof (qlog2_spec n d Hn Hd) as [_ Hlt].
  set (L := qlog2 n d) in *. set (e := round_exp n d).
  assert (He : e = Z.max (-1074) (L - 52)) by reflexivity.
  pose proof (scale_den_pos d e Hd).
  apply round_half_even_le; [lia|].
  destruct (Z.le_gt_cases e (L + 1)) as [Hle|Hgt].
  - pose proof (scale_lt n d (L + 1) e Hd Hle Hlt).
    assert (2 ^ (L + 1 - e) <= 2 ^ 53) by (apply Z.pow_le_mono_r; lia).
    nia.
  - pose proof (scale_lt_down n d (L + 1) e Hd ltac:(lia) Hlt).
    assert (1 <= 2 ^ 53) by (apply (Z.pow_le_mono_r 2 0 53); lia). nia.
Qed.

Lemma round_mant_ge (n d : Z) :
  0 < n -> 0 < d -> -1074 < round_exp n d -> 2 ^ 52 <= round_mant n d (round_exp n d).
Proof.
  intros Hn Hd He. unfold round_mant.
  assert (He' : round_exp n d = qlog2 n d - 52) by (unfold round_exp in *; lia).
  pose proof (qlog2_spec n d Hn Hd) as [Hge _].
  set (L := qlog2 n d) in *. set (e := round_exp n d) in *.
  pose proof (scale_den_pos d e Hd).
  apply round_half_even_ge; [lia|].
  pose proof (scale_ge n d L e Hd ltac:(lia) Hge).
  replace (L - e) with 52 in * by lia. lia.
Qed.

Lemma round_mant_nonneg (n d e : Z) : 0 <= n -> 0 < d -> 0 <= round_mant n d e.
Proof.
  intros Hn Hd. unfold round_mant.
  apply round_half_even_nonneg; [apply scale_den_pos; lia | apply scale_num_nonneg; lia].
Qed.

Lemma qlog2_mono (n1 d1 n2 d2 : Z) :
  0 < n1 -> 0 < d1 -> 0 < n2 -> 0 < d2 -> n1 * d2 <= n2 * d1 ->
  qlog2 n1 d1 <= qlog2 n2 d2.
Proof.
  intros H1 H2 H3 H4 Hle.
  pose proof (qlog2_spec n1 d1 H1 H2) as [G1 _].
  pose proof (qlog2_spec n2 d2 H3 H4) as [_ T2].
  set (L1 := qlog2 n1 d1) in *. set (L2 := qlog2 n2 d2) in *.
  destruct (Z.le_gt_cases L1 L2) as [|Hgt]; [assumption|exfalso].
  pose proof (scale_ge n1 d1 L1 (L2 + 1) H2 ltac:(lia) G1) as A.
  pose proof (Z.pow_pos_nonneg 2 (L1 - (L2 + 1)) ltac:(lia) ltac:(lia)).
  pose proof (scale_cross n1 d1 n2 d2 (L2 + 1) Hle) as C.
  pose proof (scale_den_pos d1 (L2 + 1) H2). pose proof (scale_den_pos d2 (L2 + 1) H4).
  assert (scale_den d1 (L2 + 1) <= scale_num n1 (L2 + 1)) by nia.
  nia.
Qed.

(** The rounded magnitude, in units of [2^-1074], is monotone. *)
Lemma round_units_mono (n1 d1 n2 d2 : Z) :
  0 < n1 -> 0 < d1 -> 0 < n2 -> 0 < d2 -> n1 * d2 <= n2 * d1 ->
  round_mant n1 d1 (round_exp n1 d1) * 2 ^ (round_exp n1 d1 + 1074)
  <= round_mant n2 d2 (round_exp n2 d2) * 2 ^ (round_exp n2 d2 + 1074).
Proof.
  intros H1 H2 H3 H4 Hle.
  pose proof (qlog2_mono n1 d1 n2 d2 H1 H2 H3 H4 Hle) as HL.
  assert (He : round_exp n1 d1 <= round_exp n2 d2) by (unfold round_exp; lia).
  pose proof (round_exp_ge n1 d1). pose proof (round_exp_ge n2 d2).
  set (e1 := round_exp n1 d1) in *. set (e2 := round_exp n2 d2) in *.
  destruct (Z.eq_dec e1 e2) as [Eq|Ne].
  - rewrite Eq. apply Z.mul_le_mono_nonneg_r; [apply Z.pow_nonneg; lia|].
    unfold round_mant. apply round_half_even_mono_cross;
      [apply scale_den_pos; lia | apply scale_den_pos; lia | apply scale_cross; assumption].
  - pose proof (round_mant_le n1 d1 H1 H2) as M1. fold e1 in M1.
    pose proof (round_mant_ge n2 d2 H3 H4 ltac:(lia)) as M2. fold e2 in M2.
    pose proof (round_mant_nonneg n1 d1 e1 ltac:(lia) H2).
    assert (E1 : 2 ^ 53 * 2 ^ (e1 + 1074) = 2 ^ (e1 + 1127)) by (rewrite <- Z.pow_add_r; f_equal; lia).
    assert (E2 : 2 ^ 52 * 2 ^ (e2 + 1074) = 2 ^ (e2 + 1126)) by (rewrite <- Z.pow_add_r; f_equal; lia).
    assert (E3 : 2 ^ (e1 + 1127) <= 2 ^ (e2 + 1126)) by (apply Z.pow_le_mono_r; lia).
    pose proof (Z.pow_pos_nonneg 2 (e1 + 1074) ltac:(lia) ltac:(lia)).
    pose proof (Z.pow_pos_nonneg 2 (e2 + 1074) ltac:(lia) ltac:(lia)).
    nia.
Qed.

Lemma Qred_num_nonneg (x : Q) : Qle 0 x -> 0 <= Qnum (Qred x).
Proof.
  intros H. pose proof (Qred_correct x) as E. unfold Qeq in E. unfold Qle in H. simpl in H.
  pose proof (Pos2Z.is_pos (Qden x)). pose proof (Pos2Z.is_pos (Qden (Qred x))). nia.
Qed.

Lemma Qred_cross_le (x y : Q) :
  Qle x y -> Qnum (Qred x) * Zpos (Qden (Qred y)) <= Qnum (Qred y) * Zpos (Qden (Qred x)).
Proof.
  intros H. assert (H' : Qle (Qred x) (Qred y)) by (rewrite !Qred_correct; exact H).
  exact H'.
Qed.

Lemma round_binary64_zero (x : Q) : Qnum (Qred x) = 0 -> round_binary64 x = Fin 0.
Proof. intros H. unfold round_binary64. rewrite H. reflexivity. Qed.

Lemma round_binary64_pos (x : Q) :
  0 < Qnum (Qred x) ->
  round_binary64 x =
  (let n := Qnum (Qred x) in
   let d := Zpos (Qden (Qred x)) in
   let v := round_mant n d (round_exp n d) * 2 ^ (round_exp n d + 1074) in
   if 2 ^ 2098 <=? v then Inf false else Fin (Qred (Qmake v (2 ^ 1074)))).
Proof.
  intros H. unfold round_binary64.
  replace (Qnum (Qred x) =? 0) with false by (symmetry; apply Z.eqb_neq; lia).
  replace (Qnum (Qred x) <? 0) with false by (symmetry; apply Z.ltb_ge; lia).
  rewrite Z.abs_eq by lia. reflexivity.
Qed.

Lemma round_units_nonneg (n d : Z) :
  0 <= n -> 0 < d -> 0 <= round_mant n d (round_exp n d) * 2 ^ (round_exp n d + 1074).
Proof.
  intros Hn Hd. pose proof (round_mant_nonneg n d (round_exp n d) Hn Hd).
  pose proof (round_exp_ge n d).
  pose proof (Z.pow_nonneg 2 (round_exp n d + 1074) ltac:(lia)). nia.
Qed.

Lemma fle_Fin (a b : Q) : fle (Fin a) (Fin b) = true <-> Qle a b.
Proof. simpl. apply Qle_bool_iff. Qed.

Lemma round_binary64_nonneg (x : Q) : Qle 0 x -> fle (Fin 0) (round_binary64 x) = true.
Proof.
  intros H. pose proof (Qred_num_nonneg x H) as Hn.
  destruct (Z.eq_dec (Qnum (Qred x)) 0) as [Z0|Z0].
  - rewrite round_binary64_zero by exact Z0. reflexivity.
  - rewrite round_binary64_pos by lia. cbv zeta.
    match goal with |- context [2 ^ 2098 <=? ?v] => destruct (2 ^ 2098 <=? v) eqn:O end;
      [reflexivity|].
    apply fle_Fin. rewrite Qred_correct. unfold Qle. simpl.
    pose proof (round_units_nonneg (Qnum (Qred x)) (Zpos (Qden (Qred x))) ltac:(lia) ltac:(lia)).
    lia.
Qed.

(** Rounding to the nearest double is monotone. *)
Lemma round_binary64_mono (x y : Q) :
  Qle 0 x -> Qle x y -> fle (round_binary64 x) (round_binary64 y) = true.
Proof.
  intros H0 Hxy.
  assert (H0y : Qle 0 y) by (eapply Qle_trans; eauto).
  pose proof (Qred_num_nonneg x H0) as Hx. pose proof (Qred_num_nonneg y H0y) as Hy.
  destruct (Z.eq_dec (Qnum (Qred x)) 0) as [Zx|Zx].
  { rewrite (round_binary64_zero x Zx). apply round_binary64_nonneg; assumption. }
  pose proof (Qred_cross_le x y Hxy) as C.
  assert (Zy : 0 < Qnum (Qred y)) by (pose proof (Pos2Z.is_pos (Qden (Qred x))); nia).
  rewrite (round_binary64_pos x) by lia. rewrite (round_binary64_pos y) by lia. cbv zeta.
  pose proof (round_units_mono (Qnum (Qred x)) (Zpos (Qden (Qred x)))
                (Qnum (Qred y)) (Zpos (Qden (Qred y))) ltac:(lia) ltac:(lia) ltac:(lia) ltac:(lia) C) as M.
  pose proof (round_units_nonneg (Qnum (Qred x)) (Zpos (Qden (Qred x))) ltac:(lia) ltac:(lia)).
  set (v1 := round_mant _ _ _ * _) in *. set (v2 := round_mant _ _ _ * 2 ^ (round_exp (Qnum (Qred y)) _ + 1074)) in *.
  destruct (2 ^ 2098 <=? v1) eqn:O1; destruct (2 ^ 2098 <=? v2) eqn:O2; try reflexivity.
  - apply Z.leb_le in O1. apply Z.leb_gt in O2. lia.
  - apply fle_Fin. rewrite !Qred_correct. unfold Qle. simpl. nia.
Qed.




(** Non-negative and not NaN: [0.0 <= x]. *)
Lemma fnn_cases (x : f64) : fle (Fin 0) x = true -> (exists a, x = Fin a /\ Qle 0 a) \/ x = Inf false.
Proof.
  destruct x as [a|[]|]; simpl; intros H; try discriminate.
  - left. exists a. split; [reflexivity|]. apply Qle_bool_iff. exact H.
  - right. reflexivity.
Qed.

Lemma fle_inf (x : f64) : fle (Fin 0) x = true -> fle x (Inf false) = true.
Proof. intros H. destruct (fnn_cases x H) as [[a [-> _]] | ->]; reflexivity. Qed.

Lemma fle_trans_nonneg (x y : f64) : fle (Fin 0) x = true -> fle x y = true -> fle (Fin 0) y = true.
Proof.
  intros H1 H2. destruct (fnn_cases x H1) as [[a [-> Ha]] | ->].
  - destruct y as [b|[]|]; simpl in *; try discriminate; try reflexivity.
    apply Qle_bool_iff. apply Qle_bool_iff in H2. eapply Qle_trans; eauto.
  - destruct y as [b|[]|]; simpl in *; try discriminate; reflexivity.
Qed.


(** [n1/d1 <= n2/d2] implies the same of the floors. *)
Lemma div_cross_le (n1 d1 n2 d2 : Z) :
  0 < d1 -> 0 < d2 -> n1 * d2 <= n2 * d1 -> n1 / d1 <= n2 / d2.
Proof.
  intros H1 H2 H. apply Z.div_le_lower_bound; [lia|].
  pose proof (Z.mul_div_le n1 d1 H1). 
  assert (d1 * (n1 / d1) * d2 <= n2 * d1) by nia.
  nia.
Qed.

(** [int(x)] of a non-negative float is its floor, and is monotone. *)
Lemma int_of_float_mono (a b : Q) (i j : Z) :
  Qle 0 a -> Qle a b ->
  int_of_float (Fin a) = Ok i -> int_of_float (Fin b) = Ok j -> 0 <= i <= j.
Proof.
  intros Ha Hab Hi Hj. simpl in Hi, Hj. injection Hi as <-. injection Hj as <-.
  unfold Qle in Ha, Hab. simpl in Ha.
  pose proof (Pos2Z.is_pos (Qden a)). pose proof (Pos2Z.is_pos (Qden b)).
  rewrite !Z.quot_div_nonneg by nia. split.
  - apply Z.div_pos; lia.
  - apply div_cross_le; lia.
Qed.

Lemma flit_075 : flit 0.75 = Fin (3 # 4).
Proof. vm_compute. reflexivity. Qed.

Lemma flit_025 : flit 0.25 = Fin (1 # 4).
Proof. vm_compute. reflexivity. Qed.

(** [int(t * c)] for a non-negative [c] is monotone in [t >= 0]. *)
Lemma int_mul_mono (c : Q) (t1 t2 i1 i2 : Z) :
  Qle 0 c -> 0 <= t1 <= t2 ->
  (let? t := float_of_int t1 in int_of_float (fmul t (Fin c))) = Ok i1 ->
  (let? t := float_of_int t2 in int_of_float (fmul t (Fin c))) = Ok i2 ->
  0 <= i1 <= i2.
Proof.
  intros Hc Ht H1 H2. unfold float_of_int, rbind in H1, H2.
  assert (Z1 : Qle 0 (inject_Z t1)) by (unfold Qle; simpl; lia).
  assert (Z12 : Qle (inject_Z t1) (inject_Z t2)) by (unfold Qle; simpl; lia).
  pose proof (round_binary64_mono _ _ Z1 Z12) as M.
  pose proof (round_binary64_nonneg _ Z1) as N.
  destruct (round_binary64 (inject_Z t1)) as [f1| |] eqn:F1; try discriminate.
  destruct (round_binary64 (inject_Z t2)) as [f2| |] eqn:F2; try discriminate.
  simpl in M, N. apply Qle_bool_iff in M, N.
  simpl fmul in H1, H2.
  assert (Y1 : Qle 0 (f1 * c)) by (apply Qmult_le_0_compat; assumption).
  assert (Y12 : Qle (f1 * c) (f2 * c)) by (apply Qmult_le_compat_r; assumption).
  pose proof (round_binary64_mono _ _ Y1 Y12) as M'.
  pose proof (round_binary64_nonneg _ Y1) as N'.
  destruct (round_binary64 (f1 * c)) as [g1| |] eqn:G1; try discriminate.
  destruct (round_binary64 (f2 * c)) as [g2| |] eqn:G2; try discriminate.
  simpl in M', N'. apply Qle_bool_iff in M', N'.
  eapply int_of_float_mono; eauto.
Qed.

Lemma input_tokens_mono (t1 t2 i1 i2 : Z) :
  0 <= t1 <= t2 -> input_tokens t1 = Ok i1 -> input_tokens t2 = Ok i2 -> 0 <= i1 <= i2.
Proof.
  unfold input_tokens. rewrite flit_075. apply int_mul_mono. unfold Qle; simpl; lia.
Qed.

Lemma output_tokens_mono (t1 t2 i1 i2 : Z) :
  0 <= t1 <= t2 -> output_tokens t1 = Ok i1 -> output_tokens t2 = Ok i2 -> 0 <= i1 <= i2.
Proof.
  unfold output_tokens. rewrite flit_025. apply int_mul_mono. unfold Qle; simpl; lia.
Qed.

(** [i / 1000] of ints is monotone in [i >= 0]. *)
Lemma int_truediv_mono (i1 i2 : Z) (a b : f64) :
  0 <= i1 <= i2 -> int_truediv i1 1000 = Ok a -> int_truediv i2 1000 = Ok b ->
  exists qa qb, a = Fin qa /\ b = Fin qb /\ Qle 0 qa /\ Qle qa qb.
Proof.
  intros Hi Ha Hb. unfold int_truediv in Ha, Hb. simpl in Ha, Hb.
  assert (Z1 : Qle 0 (inject_Z i1 / inject_Z 1000)) by (unfold Qle, Qdiv; simpl; lia).
  assert (Z12 : Qle (inject_Z i1 / inject_Z 1000) (inject_Z i2 / inject_Z 1000))
    by (unfold Qle, Qdiv; simpl; lia).
  pose proof (round_binary64_mono _ _ Z1 Z12) as M.
  pose proof (round_binary64_nonneg _ Z1) as N.
  destruct (round_binary64 (inject_Z i1 / inject_Z 1000)) as [f1| |]; try discriminate.
  destruct (round_binary64 (inject_Z i2 / inject_Z 1000)) as [f2| |]; try discriminate.
  injection Ha as <-. injection Hb as <-. simpl in M, N. apply Qle_bool_iff in M, N.
  exists f1, f2. auto.
Qed.

(** [x * c] for a non-negative finite [c], on finite [0 <= x <= y]. *)
Lemma fmul_fin_mono (a b c : Q) :
  Qle 0 c -> Qle 0 a -> Qle a b ->
  fle (Fin 0) (fmul (Fin a) (Fin c)) = true /\ fle (fmul (Fin a) (Fin c)) (fmul (Fin b) (Fin c)) = true.
Proof.
  intros Hc Ha Hab. simpl fmul.
  assert (Y1 : Qle 0 (a * c)) by (apply Qmult_le_0_compat; assumption).
  assert (Y12 : Qle (a * c) (b * c)) by (apply Qmult_le_compat_r; assumption).
  split; [apply round_binary64_nonneg | apply round_binary64_mono]; assumption.
Qed.

(** [x + y] on non-negative values is monotone in both arguments. *)
Lemma fadd_mono (x1 x2 y1 y2 : f64) :
  fle (Fin 0) x1 = true -> fle (Fin 0) x2 = true -> fle x1 y1 = true -> fle x2 y2 = true ->
  fle (Fin 0) (fadd x1 x2) = true /\ fle (fadd x1 x2) (fadd y1 y2) = true.
Proof.
  intros N1 N2 M1 M2.
  assert (NN : fle (Fin 0) (fadd x1 x2) = true).
  { destruct (fnn_cases x1 N1) as [[a1 [-> A1]] | ->];
      destruct (fnn_cases x2 N2) as [[a2 [-> A2]] | ->]; try reflexivity.
    apply round_binary64_nonneg. apply (Qplus_le_compat 0 a1 0 a2) in A1; assumption. }
  split; [exact NN|].
  pose proof (fle_trans_nonneg _ _ N1 M1) as P1. pose proof (fle_trans_nonneg _ _ N2 M2) as P2.
  destruct (fnn_cases y1 P1) as [[b1 [-> B1]] | ->];
    [ | destruct (fnn_cases x2 N2) as [[a2 [-> A2]] | ->];
        destruct (fnn_cases y2 P2) as [[b2 [-> B2]] | ->]; apply fle_inf; assumption ].
  destruct (fnn_cases y2 P2) as [[b2 [-> B2]] | ->];
    [ | destruct (fnn_cases x1 N1) as [[a1 [-> A1]] | ->]; apply fle_inf; assumption ].
  destruct (fnn_cases x1 N1) as [[a1 [-> A1]] | ->]; [|discriminate].
  destruct (fnn_cases x2 N2) as [[a2 [-> A2]] | ->]; [|discriminate].
  simpl in M1, M2. apply Qle_bool_iff in M1, M2. simpl fadd.
  apply round_binary64_mono.
  - apply (Qplus_le_compat 0 a1 0 a2) in A1; assumption.
  - apply Qplus_le_compat; assumption.
Qed.

(** [round(x, 6)] is monotone on non-negative values. *)
Lemma py_round6_mono (x y c1 c2 : f64) :
  fle (Fin 0) x = true -> fle x y = true -> py_round6 x = Ok c1 -> py_round6 y = Ok c2 ->
  fle (Fin 0) c1 = true /\ fle c1 c2 = true.
Proof.
  intros N M H1 H2.
  pose proof (fle_trans_nonneg _ _ N M) as P.
  destruct (fnn_cases x N) as [[a [-> A]] | ->].
  - unfold py_round6 in H1.
    set (r1 := round_half_even (Qnum a * 10 ^ 6) (Zpos (Qden a))) in H1.
    pose proof (Pos2Z.is_pos (Qden a)).
    assert (R1 : 0 <= r1).
    { apply round_half_even_nonneg; [lia|]. unfold Qle in A; simpl in A. lia. }
    assert (Z1 : Qle 0 (Qmake r1 (10 ^ 6))) by (unfold Qle; simpl; lia).
    pose proof (round_binary64_nonneg _ Z1) as NR.
    destruct (round_binary64 (Qmake r1 (10 ^ 6))) as [v1| |] eqn:V1; try discriminate.
    injection H1 as <-. split; [exact NR|].
    destruct (fnn_cases y P) as [[b [-> B]] | ->]; [|injection H2 as <-; reflexivity].
    unfold py_round6 in H2.
    set (r2 := round_half_even (Qnum b * 10 ^ 6) (Zpos (Qden b))) in H2.
    pose proof (Pos2Z.is_pos (Qden b)).
    assert (R12 : r1 <= r2).
    { apply round_half_even_mono_cross; [lia|lia|].
      simpl in M. apply Qle_bool_iff in M. unfold Qle in M. nia. }
    assert (Z12 : Qle (Qmake r1 (10 ^ 6)) (Qmake r2 (10 ^ 6))) by (unfold Qle; simpl; nia).
    pose proof (round_binary64_mono _ _ Z1 Z12) as MR. rewrite V1 in MR.
    destruct (round_binary64 (Qmake r2 (10 ^ 6))) as [v2| |]; try discriminate.
    injection H2 as <-. exact MR.
  - injection H1 as <-. destruct (fnn_cases y P) as [[b [-> B]] | ->]; [discriminate|].
    injection H2 as <-. split; reflexivity.
Qed.

(** The prices [calculate_cost] reads are finite and non-negative. *)
Lemma lookup_price_fin (p : provider) (k : string) :
  exists qi qo,
    flit (input (match lookup k (pricing p) with Some pr => pr | None => {| input := 0; output := 0 |} end)) = Fin qi /\
    flit (output (match lookup k (pricing p) with Some pr => pr | None => {| input := 0; output := 0 |} end)) = Fin qo /\
    Qle 0 qi /\ Qle 0 qo.
Proof.
  destruct p; cbn [pricing lookup];
    repeat match goal with |- context [String.eqb ?a ?b] => destruct (String.eqb a b) end;
    vm_compute; do 2 eexists; (split; [reflexivity|]); (split; [reflexivity|]);
    split; discriminate.
Qed.

Lemma calculate_cost_mono_aux (p : provider) (m : string) (t1 t2 : Z) (c1 c2 : f64) :
  0 <= t1 <= t2 -> calculate_cost p t1 m = Ok c1 -> calculate_cost p t2 m = Ok c2 ->
  fle (Fin 0) c1 = true /\ fle c1 c2 = true.
Proof.
  intros Ht H1 H2. unfold calculate_cost in H1, H2.
  destruct (lookup_price_fin p (if mem m (pricing p) then m else default_model p))
    as (qi & qo & Hi & Ho & Qi & Qo).
  cbv zeta in H1, H2. rewrite Hi, Ho in H1, H2.
  destruct (input_tokens t1) as [i1|] eqn:I1; [|discriminate].
  destruct (input_tokens t2) as [i2|] eqn:I2; [|discriminate].
  destruct (output_tokens t1) as [o1|] eqn:O1; [|discriminate].
  destruct (output_tokens t2) as [o2|] eqn:O2; [|discriminate].
  cbn [rbind] in H1, H2.
  pose proof (input_tokens_mono _ _ _ _ Ht I1 I2) as Mi.
  pose proof (output_tokens_mono _ _ _ _ Ht O1 O2) as Mo.
  destruct (int_truediv i1 1000) as [a1|] eqn:A1; [|discriminate].
  destruct (int_truediv i2 1000) as [a2|] eqn:A2; [|discriminate].
  destruct (int_truediv o1 1000) as [b1|] eqn:B1; [|discriminate].
  destruct (int_truediv o2 1000) as [b2|] eqn:B2; [|discriminate].
  cbn [rbind] in H1, H2.
  destruct (int_truediv_mono _ _ _ _ Mi A1 A2) as (x1 & x2 & -> & -> & X1 & X12).
  destruct (int_truediv_mono _ _ _ _ Mo B1 B2) as (y1 & y2 & -> & -> & Y1 & Y12).
  destruct (fmul_fin_mono _ _ _ Qi X1 X12) as [NA MA].
  destruct (fmul_fin_mono _ _ _ Qo Y1 Y12) as [NB MB].
  destruct (fadd_mono _ _ _ _ NA NB MA MB) as [NS MS].
  exact (py_round6_mono _ _ _ _ NS MS H1 H2).
Qed.








(** Costs are non-negative. *)
Lemma cost_nonneg (p : provider) (t : Z) (m : string) (c : f64) :
  0 <= t -> calculate_cost p t m = Ok c -> fle (Fin 0) c = true.
Proof. intros Ht H. exact (proj1 (calculate_cost_mono_aux p m t t c c ltac:(lia) H H)). Qed.

Lemma fle0_flt0 (c : f64) : fle (Fin 0) c = true -> flt0 c = false.
Proof.
  intros N. destruct (fnn_cases c N) as [[a [-> Ha]] | ->]; [|reflexivity].
  unfold flt0, qneg. apply Z.ltb_ge. unfold Qle in Ha. simpl in Ha. lia.
Qed.

Example calculate_cost_1000_gpt4 : calculate_cost OpenAIProvider 1000 "gpt-4" = Ok (flit 0.0375).
Proof. vm_compute. reflexivity. Qed.




(** C7: for every provider and every fixed model name, [calculate_cost] is
    non-decreasing in the token count: on [0 <= t1 <= t2], when both calls
    return, the first cost is [<=] the second as Python compares floats. *)
Theorem calculate_cost_monotone (p : provider) (m : string) (t1 t2 : Z) (c1 c2 : f64) :
  0 <= t1 <= t2 -> calculate_cost p t1 m = Ok c1 -> calculate_cost p t2 m = Ok c2 ->
  fle c1 c2 = true.
Proof. intros Ht H1 H2. exact (proj2 (calculate_cost_mono_aux p m t1 t2 c1 c2 Ht H1 H2)). Qed.

Lemma calculate_cost_monotone_witness :
  0 <= 7 <= 1234 /\
  calculate_cost ClaudeProvider 7 "claude-3-opus-20240229" = Ok (flit 0.00015) /\
  calculate_cost ClaudeProvider 1234 "claude-3-opus-20240229" = Ok (flit 0.036975) /\
  fle (flit 0.00015) (flit 0.036975) = true.
Proof.
  assert (H1 : calculate_cost ClaudeProvider 7 "claude-3-opus-20240229" = Ok (flit 0.00015))
    by (vm_compute; reflexivity).
  assert (H2 : calculate_cost ClaudeProvider 1234 "claude-3-opus-20240229" = Ok (flit 0.036975))
    by (vm_compute; reflexivity).
  split; [lia|]. split; [exact H1|]. split; [exact H2|].
  exact (calculate_cost_monotone ClaudeProvider "claude-3-opus-20240229" 7 1234 _ _
           ltac:(lia) H1 H2).
Defined.

(** C8: for a model name absent from the provider's table, [calculate_cost]
    computes exactly what it computes for the provider's default model
    (gpt-4, gemini-pro or claude-3-sonnet-20240229): the unknown name raises
    no error of its own. *)
Theorem calculate_cost_unknown_model (p : provider) (t : Z) (m : string) :
  mem m (pricing p) = false ->
  calculate_cost p t m = calculate_cost p t (default_model p).
Proof.
  intros Hm. unfold calculate_cost at 1. rewrite Hm.
  unfold calculate_cost. destruct p; reflexivity.
Qed.

Lemma calculate_cost_unknown_model_witness :
  mem "gpt-5" (pricing OpenAIProvider) = false /\
  calculate_cost OpenAIProvider 1000 "gpt-5" = calculate_cost OpenAIProvider 1000 "gpt-4".
Proof.
  split; [reflexivity|].
  apply (calculate_cost_unknown_model OpenAIProvider 1000 "gpt-5"). reflexivity.
Defined.

(** C9 (counterexample): at [t = 2^53 + 3] the float product [t * 0.75]
    rounds up, and [int(t*0.75) + int(t*0.25)] is [t + 1]. *)
Lemma tokens_split_exceeds_total :
  input_tokens (2 ^ 53 + 3) = Ok (3 * 2 ^ 51 + 3) /\
  output_tokens (2 ^ 53 + 3) = Ok (2 ^ 51 + 1) /\
  2 ^ 53 + 3 < (3 * 2 ^ 51 + 3) + (2 ^ 51 + 1).
Proof. vm_compute. repeat split; reflexivity. Qed.



Example validate_tone_default :
  validate_variables_against_schema []
    (JObj [("properties", JObj [("tone", JObj [("type", JStr "string");
                                               ("default", JStr "formal")])]);
           ("required", JArr [])])
  = Ok [("tone", JStr "formal")].
Proof. reflexivity. Qed.

Example validate_name_required :
  exists m, validate_variables_against_schema []
    (JObj [("required", JArr [JStr "name"])]) = Err (ValueError m).
Proof. eexists. reflexivity. Qed.

(** ** Validation and enrichment *)

Lemma lookup_in {A} (k : string) (l : list (string * A)) (x : A) :
  lookup k l = Some x -> In (k, x) l.
Proof.
  induction l as [|[k' v] l IH]; simpl; [discriminate|].
  destruct (String.eqb_spec k k') as [->|_].
  - intros H; inversion H; auto.
  - intros H; auto.
Qed.

Lemma lookup_app_some {A} (k : string) (l l' : list (string * A)) (x : A) :
  lookup k l = Some x -> lookup k (l ++ l')%list = Some x.
Proof.
  induction l as [|[k' v] l IH]; simpl; [discriminate|].
  destruct (String.eqb k k'); auto.
Qed.

Lemma lookup_app_none {A} (k : string) (l l' : list (string * A)) :
  lookup k l = None -> lookup k (l ++ l')%list = lookup k l'.
Proof.
  induction l as [|[k' v] l IH]; simpl; [reflexivity|].
  destruct (String.eqb k k'); [discriminate | auto].
Qed.

Lemma mem_lookup {A} (k : string) (l : list (string * A)) :
  mem k l = false <-> lookup k l = None.
Proof. unfold mem. destruct (lookup k l); split; congruence. Qed.

Lemma oconcat_nil {A} (l : list (option (list A))) :
  oconcat l = Some [] -> forall x, In x l -> x = Some [].
Proof.
  induction l as [|o l IH]; simpl; [tauto|].
  destruct o as [a|]; [|discriminate].
  destruct (oconcat l) as [b|]; [|discriminate].
  intros H. inversion H as [Hab].
  apply app_eq_nil in Hab as [-> ->].
  intros x [<-|Hx]; auto.
Qed.

Lemma enrich_preserves (props : list (string * json)) (e out : dict) :
  enrich props e = Ok out -> forall k x, lookup k e = Some x -> lookup k out = Some x.
Proof.
  revert e. induction props as [|[p ps] props IH]; simpl; intros e H k x Hk.
  - inversion H; subst; assumption.
  - destruct (mem p e); [eapply IH; eauto|].
    destruct (py_contains "default" ps) as [[|]|]; try discriminate.
    + destruct (py_getitem "default" ps); [|discriminate].
      eapply IH; [eassumption|]. apply lookup_app_some; assumption.
    + eapply IH; eauto.
Qed.

Lemma enrich_defaults (props : list (string * json)) (e out : dict) :
  enrich props e = Ok out ->
  forall k ps d, lookup k props = Some (JObj ps) -> lookup "default" ps = Some d ->
  lookup k e = None -> lookup k out = Some d.
Proof.
  revert e. induction props as [|[p ps0] props IH]; simpl; intros e H k ps d Hp Hd Hk;
    [discriminate|].
  destruct (String.eqb_spec k p) as [<-|Hne].
  - inversion Hp; subst ps0. clear Hp.
    assert (Hm : mem k e = false) by (apply mem_lookup; assumption).
    rewrite Hm in H. simpl in H. unfold mem in H. rewrite Hd in H.
    eapply enrich_preserves; [eassumption|].
    rewrite lookup_app_none by assumption. simpl. rewrite String.eqb_refl. reflexivity.
  - destruct (mem p e); [eapply IH; eauto|].
    destruct (py_contains "default" ps0) as [[|]|]; try discriminate.
    + destruct (py_getitem "default" ps0); [|discriminate].
      eapply IH; eauto. rewrite lookup_app_none by assumption. simpl.
      apply String.eqb_neq in Hne. rewrite Hne. reflexivity.
    + eapply IH; eauto.
Qed.

Lemma iter_errors_root_required (fuel : nat) (root : json) (kv : list (string * json))
      (v : dict) (l : list json) :
  schema_ref kv = None -> lookup "required" kv = Some (JArr l) ->
  iter_errors (S fuel) root (JObj kv) (JObj v) = Some [] ->
  forall k, In (JStr k) l -> mem k v = true.
Proof.
  intros Hr Hq H k Hk. simpl in H. rewrite Hr in H.
  apply lookup_in in Hq.
  pose proof (oconcat_nil _ H _ (in_map _ _ _ Hq)) as Hreq. simpl in Hreq.
  pose proof (oconcat_nil _ Hreq _ (in_map _ _ _ Hk)) as Hk'. simpl in Hk'.
  destruct (mem k v); [reflexivity | discriminate].
Qed.

Lemma in_required_names (kv : list (string * json)) (k : string) :
  In k (required_names (JObj kv)) ->
  exists l, lookup "required" kv = Some (JArr l) /\ In (JStr k) l.
Proof.
  simpl. destruct (lookup "required" kv) as [[| | | |l|]|]; try contradiction.
  intros H. exists l. split; [reflexivity|].
  apply in_flat_map in H as [x [Hx Hk]].
  destruct x; simpl in Hk; try contradiction.
  destruct Hk as [<-|[]]. assumption.
Qed.

(** C2 (counterexample): validation of [{}] against [ref_schema] succeeds
    and returns [{}], although [ref_schema] lists ["name"] as required. *)
Lemma validate_required_not_enforced_beside_ref :
  ~ (forall v s out, validate_variables_against_schema v s = Ok out ->
       forall k, In k (required_names s) -> mem k out = true).
Proof.
  intros H.
  assert (E : validate_variables_against_schema [] ref_schema = Ok []) by reflexivity.
  specialize (H [] ref_schema [] E "name" (or_introl eq_refl)).
  discriminate H.
Qed.

(** C2 (amended): when [validate_variables_against_schema v s] succeeds
    with [out]: if the root of [s] has no [$ref] (beside which Draft 7
    ignores every keyword), every property of [s]'s [required] is in [out];
    every property of [s.properties] absent from [v] whose schema carries a
    [default] is mapped to that default in [out]; every key of [v] keeps its
    value of [v] in [out]. *)
Theorem validate_variables_against_schema_enriches (v : dict) (s : json) (out : dict) :
  validate_variables_against_schema v s = Ok out ->
  (root_ref s = None -> forall k, In k (required_names s) -> mem k out = true) /\
  (forall kv props k ps d,
      s = JObj kv -> lookup "properties" kv = Some (JObj props) ->
      lookup k props = Some (JObj ps) -> lookup "default" ps = Some d ->
      mem k v = false -> lookup k out = Some d) /\
  (forall k x, lookup k v = Some x -> lookup k out = Some x).
Proof.
  unfold validate_variables_against_schema.
  destruct (py_truthy s) eqn:Ht; cbn [negb]; intros H.
  - destruct (iter_errors recursion_limit s s (JObj v)) as [[|e es]|] eqn:Hi;
      try discriminate.
    destruct s as [| | | | |kv]; try discriminate.
    (* the enrichment runs on some property list [props0] *)
    assert (Hen : exists props0, enrich props0 v = Ok out /\
                  forall props, lookup "properties" kv = Some (JObj props) -> props0 = props).
    { destruct (lookup "properties" kv) as [[| | | | |props]|]; try discriminate.
      - exists props. split; [assumption|]. intros p Hp. congruence.
      - exists []. split; [assumption|]. discriminate. }
    destruct Hen as [props0 [Henr Hp0]].
    split; [|split].
    + intros Hr k Hk. simpl in Hr.
      destruct (in_required_names kv k Hk) as [l [Hl Hkl]].
      unfold recursion_limit in Hi.
      assert (Hm : mem k v = true) by (eapply iter_errors_root_required; eauto).
      unfold mem in Hm |- *. destruct (lookup k v) eqn:Hkv; [|discriminate].
      erewrite enrich_preserves; eauto.
    + intros kv' props k ps d Hs Hprops Hk Hd Hkv. inversion Hs; subst kv'.
      apply Hp0 in Hprops. subst props0.
      eapply enrich_defaults; eauto. apply mem_lookup; assumption.
    + intros k x Hk. eapply enrich_preserves; eauto.
  - inversion H; subst out. split; [|split].
    + intros _ k Hk. exfalso.
      destruct s as [| | | | |kv]; simpl in Hk; try contradiction.
      destruct kv; [contradiction | discriminate].
    + intros kv props k ps d -> Hp. destruct kv; [discriminate | discriminate].
    + auto.
Qed.

Lemma validate_variables_against_schema_enriches_witness :
  validate_variables_against_schema [("name", JStr "Ada")]
    (JObj [("properties", JObj [("tone", JObj [("default", JStr "formal")])]);
           ("required", JArr [JStr "name"])])
  = Ok [("name", JStr "Ada"); ("tone", JStr "formal")] /\
  mem "name" [("name", JStr "Ada"); ("tone", JStr "formal")] = true.
Proof.
  split; [reflexivity|].
  apply (proj1 (validate_variables_against_schema_enriches
                  [("name", JStr "Ada")]
                  (JObj [("properties", JObj [("tone", JObj [("default", JStr "formal")])]);
                         ("required", JArr [JStr "name"])])
                  [("name", JStr "Ada"); ("tone", JStr "formal")] eq_refl)).
  - reflexivity.
  - simpl. auto.
Defined.

(** ** Template rendering and runs of the route *)

Example format_hello : format "Hello {name}" [("name", JStr "Ada")] = Ok "Hello Ada".
Proof. reflexivity. Qed.

Example format_missing : format "Hello {name}" [] = Err (KeyError "name").
Proof. reflexivity. Qed.

Example run_success :
  let '(s, r) := execute_prompt (env_with (VendorReply "fine" (JInt 1000))) 1 (req_of []) st0 in
  active_executions s = 0 /\ List.length (ledger s) = 1%nat /\
  map variables (ledger s) = [[("tone", JStr "formal")]] /\
  match r with Ok resp => resp_cost resp = flit 0.0375 /\ resp_execution_time resp = Fin 3 | Err _ => False end.
Proof. vm_compute. repeat split; reflexivity. Qed.

Example run_vendor_failure :
  let '(s, r) := execute_prompt (env_with (VendorFailure "timeout")) 1 (req_of []) st0 in
  r = Err (HTTPException 500 "Execution failed: timeout") /\
  map status (ledger s) = ["error"] /\ map variables (ledger s) = [[]].
Proof. vm_compute. repeat split; reflexivity. Qed.

Example run_not_found :
  let '(s, r) := execute_prompt (env_with (VendorFailure "timeout")) 2 (req_of []) st0 in
  r = Err (HTTPException 404 "Expert prompt not found") /\ ledger s = [] /\
  active_executions s = 0.
Proof. vm_compute. repeat split; reflexivity. Qed.

(** ** The in-flight gauge *)

Lemma gauge_frame_ret {A} (a : A) : gauge_frame (ret a).
Proof. intros s; split; reflexivity. Qed.

Lemma gauge_frame_raise {A} (e : exn) : gauge_frame (@raise A e).
Proof. intros s; split; reflexivity. Qed.

Lemma gauge_frame_lift {A} (r : result A) : gauge_frame (lift r).
Proof. intros s; split; reflexivity. Qed.

Lemma gauge_frame_time (E : Env) : gauge_frame (time E).
Proof. intros s; split; reflexivity. Qed.

Lemma gauge_frame_counter_inc (m : metric) (negative : bool) : gauge_frame (counter_inc m negative).
Proof. unfold counter_inc. destruct negative; intros s; split; reflexivity. Qed.

Lemma gauge_frame_histogram_observe (m : metric) : gauge_frame (histogram_observe m).
Proof. intros s; split; reflexivity. Qed.

Lemma gauge_frame_db_add E mk : gauge_frame (db_add E mk).
Proof. intros s; split; reflexivity. Qed.

Lemma gauge_frame_execute E p pr m t mt : gauge_frame (execute E p pr m t mt).
Proof.
  intros s. unfold execute. destruct (vendor E p pr m t mt); split; reflexivity.
Qed.

Lemma gauge_frame_bind {A B} (m : M A) (k : A -> M B) :
  gauge_frame m -> (forall a, gauge_frame (k a)) -> gauge_frame (bind m k).
Proof.
  intros Hm Hk s. unfold bind. specialize (Hm s).
  destruct (m s) as [s' [a|e]]; simpl in *.
  - destruct Hm, (Hk a s'). split; congruence.
  - assumption.
Qed.

Lemma gauge_frame_try_except {A} (m : M A) (h : exn -> M A) :
  gauge_frame m -> (forall e, gauge_frame (h e)) -> gauge_frame (try_except m h).
Proof.
  intros Hm Hh s. unfold try_except. specialize (Hm s).
  destruct (m s) as [s' [a|e]]; simpl in *.
  - assumption.
  - destruct Hm, (Hh e s'). split; congruence.
Qed.

Lemma gauge_frame_value_error_to_400 {A} (m : M A) :
  gauge_frame m -> gauge_frame (value_error_to_400 m).
Proof.
  intros Hm. apply gauge_frame_try_except; [assumption|].
  intros []; apply gauge_frame_raise.
Qed.

Lemma gauge_frame_key_error_to_400 {A} (m : M A) :
  gauge_frame m -> gauge_frame (key_error_to_400 m).
Proof.
  intros Hm. apply gauge_frame_try_except; [assumption|].
  intros []; apply gauge_frame_raise.
Qed.

Create HintDb gauge.
#[local] Hint Resolve gauge_frame_ret gauge_frame_raise gauge_frame_lift gauge_frame_time
  gauge_frame_counter_inc gauge_frame_histogram_observe gauge_frame_db_add
  gauge_frame_execute gauge_frame_value_error_to_400 gauge_frame_key_error_to_400 : gauge.

Ltac gauge_frame_solve :=
  repeat first
    [ apply gauge_frame_bind; [| intros ?]
    | match goal with
      | |- gauge_frame (match ?x with _ => _ end) => destruct x
      end
    | solve [auto with gauge] ].

Lemma gauge_frame_execute_prompt_try E pid req start :
  gauge_frame (execute_prompt_try E pid req start).
Proof. unfold execute_prompt_try. gauge_frame_solve. Qed.

Lemma gauge_frame_execute_prompt_except E pid req start e :
  gauge_frame (execute_prompt_except E pid req start e).
Proof. unfold execute_prompt_except. destruct e; gauge_frame_solve. Qed.

(** C5: every call of [execute_prompt], whatever its environment, request
    and outcome (return, or any of the raised errors), applies exactly one
    increment of the in-flight gauge, at entry, and exactly one decrement,
    after everything else, so the gauge ends at its value before the call. *)
Theorem execute_prompt_gauge_balanced (E : Env) (pid : Z) (req : PromptExecutionRequest) (s : St) :
  active_executions (fst (execute_prompt E pid req s)) = active_executions s /\
  gauge_ops (fst (execute_prompt E pid req s)) = (gauge_ops s ++ [GaugeInc; GaugeDec])%list.
Proof.
  unfold execute_prompt, bind, gauge_inc, modify, time, try_finally. cbn [fst snd].
  match goal with
  | |- context [try_except (execute_prompt_try E pid req ?t) (execute_prompt_except E pid req ?t) ?st] =>
      pose proof (gauge_frame_try_except _ _ (gauge_frame_execute_prompt_try E pid req t)
                    (gauge_frame_execute_prompt_except E pid req t) st) as [H1 H2];
      destruct (try_except _ _ st) as [s2 r]
  end.
  simpl in *. rewrite H1, H2. simpl. split; [lia|].
  rewrite <- app_assoc. reflexivity.
Qed.

(* ------------------------------------------------------------------ *)
(** ** Symbolic runs of the route *)

Ltac route_cbn :=
  cbv [modify set_gauge];
  cbn -[validate_variables_against_schema format get_provider calculate_cost_py py_or].

Ltac run_route :=
  unfold execute_prompt, try_finally, try_except, execute_prompt_try,
    execute_prompt_except, value_error_to_400, key_error_to_400, bind, lift,
    ret, raise, time, gauge_inc, gauge_dec, modify, db_add, counter_inc,
    histogram_observe, execute;
  route_cbn.

(** Case analysis on every collaborator and every fallible step. *)
Ltac split_route :=
  repeat (route_cbn;
   match goal with
   | |- context [expert_prompts ?E ?p] => destruct (expert_prompts E p) eqn:?
   | |- context [validate_variables_against_schema ?a ?b] =>
       destruct (validate_variables_against_schema a b) as [?|[]] eqn:?
   | |- context [get_provider ?E ?n] => destruct (get_provider E n) as [?|[]] eqn:?
   | |- context [format ?t ?v] => destruct (format t v) as [?|[]] eqn:?
   | |- context [vendor ?E ?a ?b ?c ?d ?f] => destruct (vendor E a b c d f) eqn:?
   | |- context [calculate_cost_py ?a ?b ?c] =>
       destruct (calculate_cost_py a b c) as [?|[]] eqn:?
   | |- context [py_int ?t] => destruct (py_int t) eqn:?
   | |- context [?a <? ?b] => destruct (a <? b) eqn:?
   | |- context [flt0 ?c] => destruct (flt0 c) eqn:?
   end);
  route_cbn.

Lemma calculate_cost_py_err (p : provider) (t : json) (m : string) (e : exn) :
  calculate_cost_py p t m = Err e -> forall c d, e <> HTTPException c d.
Proof.
  unfold calculate_cost_py. destruct (py_int t) as [z|]; [|intros H c d; inversion H; discriminate].
  unfold calculate_cost. cbv zeta.
  unfold input_tokens, output_tokens, int_truediv, py_round6, float_of_int, int_of_float, rbind.
  cbn [Z.eqb].
  repeat match goal with
         | |- context [match ?x with _ => _ end] =>
             lazymatch x with match _ with _ => _ end => fail | _ => destruct x end
         end;
  intros H c d; inversion H; discriminate.
Qed.

(** C6: when the prompt exists and the validation of the caller's variables
    raises its [ValueError], [execute_prompt] raises an HTTP 400 carrying the
    validation message and the ledger is unchanged. *)
Theorem execute_prompt_validation_failure (E : Env) (pid : Z)
  (req : PromptExecutionRequest) (s : St) (p : ExpertPrompt) (m : string) :
  expert_prompts E pid = Some p ->
  validate_variables_against_schema (req_variables req) (variables_schema p)
  = Err (ValueError m) ->
  snd (execute_prompt E pid req s) = Err (HTTPException 400 m) /\
  ledger (fst (execute_prompt E pid req s)) = ledger s.
Proof.
  intros Hp Hv. run_route. rewrite Hp. route_cbn. rewrite Hv. route_cbn.
  split; reflexivity.
Qed.

Lemma execute_prompt_validation_failure_witness :
  exists m,
    validate_variables_against_schema []
      (JObj [("required", JArr [JStr "name"])]) = Err (ValueError m) /\
    snd (execute_prompt
           {| expert_prompts := fun _ => Some {| template := "Hello {name}";
                                                 variables_schema :=
                                                   JObj [("required", JArr [JStr "name"])] |};
              api_key_set := fun _ => true;
              vendor := fun _ _ _ _ _ => VendorFailure "unreachable";
              current_user_id := 7; wall_clock := clock3; id_gap := fun _ => O |} 5 (req_of []) st0)
    = Err (HTTPException 400 m) /\
    ledger (fst (execute_prompt
           {| expert_prompts := fun _ => Some {| template := "Hello {name}";
                                                 variables_schema :=
                                                   JObj [("required", JArr [JStr "name"])] |};
              api_key_set := fun _ => true;
              vendor := fun _ _ _ _ _ => VendorFailure "unreachable";
              current_user_id := 7; wall_clock := clock3; id_gap := fun _ => O |} 5 (req_of []) st0))
    = ledger st0.
Proof.
  eexists. split; [vm_compute; reflexivity|].
  apply (execute_prompt_validation_failure _ 5 (req_of []) st0
           {| template := "Hello {name}";
              variables_schema := JObj [("required", JArr [JStr "name"])] |});
    [reflexivity | vm_compute; reflexivity].
Defined.

(** C3: when the prompt exists, the variables validate, the provider
    resolves and the template renders, and then the vendor call or the cost
    computation raises [e] (any error of [calculate_cost], such as the
    [OverflowError] of a token count too large for a float),
    [execute_prompt] appends exactly one row to the ledger, with status
    ["error"], [str(e)] as its error message, 0 tokens, cost [0.0] and as
    duration the second reading of the wall clock (in the [except] block)
    minus the first (at entry), and raises an HTTP 500 carrying [str(e)]. *)
Theorem execute_prompt_dispatch_error (E : Env) (pid : Z)
  (req : PromptExecutionRequest) (s : St) (p : ExpertPrompt) (vv : dict)
  (prov : provider) (filled : string) (e : exn) :
  expert_prompts E pid = Some p ->
  validate_variables_against_schema (req_variables req) (variables_schema p) = Ok vv ->
  get_provider E (py_or (req_llm_provider req) "openai") = Ok prov ->
  format (template p) vv = Ok filled ->
  dispatch_raises E prov filled (py_or (req_llm_model req) "gpt-4") req e ->
  snd (execute_prompt E pid req s) = Err (HTTPException 500 ("Execution failed: " ++ exn_str e)) /\
  exists row,
    ledger (fst (execute_prompt E pid req s)) = (ledger s ++ [row])%list /\
    status row = "error" /\ error_message row = Some (exn_str e) /\
    tokens_used row = JInt 0 /\ cost row = Fin 0 /\
    execution_time row = fsub (round_binary64 (wall_clock E (S (clock_reads s))))
                              (round_binary64 (wall_clock E (clock_reads s))).
Proof.
  intros Hp Hv Hg Hf Hr. run_route.
  rewrite Hp. route_cbn. rewrite Hv. route_cbn. rewrite Hg. route_cbn.
  rewrite Hf. route_cbn.
  destruct Hr as [[msg [Hx ->]] | [text [usage [Hx Hc]]]].
  - rewrite Hx. route_cbn.
    split; [reflexivity|]. eexists; repeat split.
  - rewrite Hx. route_cbn. rewrite Hc.
    pose proof (calculate_cost_py_err _ _ _ _ Hc) as He.
    destruct e; try (exfalso; eapply He; reflexivity); route_cbn;
      (split; [reflexivity|]); eexists; repeat split.
Qed.

Lemma execute_prompt_dispatch_error_witness :
  snd (execute_prompt (env_with (VendorFailure "timeout")) 1 (req_of []) st0)
  = Err (HTTPException 500 ("Execution failed: " ++ exn_str (OtherError "timeout"))) /\
  exists row,
    ledger (fst (execute_prompt (env_with (VendorFailure "timeout")) 1 (req_of []) st0))
    = (ledger st0 ++ [row])%list /\
    status row = "error" /\ error_message row = Some (exn_str (OtherError "timeout")) /\
    tokens_used row = JInt 0 /\ cost row = Fin 0 /\
    execution_time row
    = fsub (round_binary64 (wall_clock (env_with (VendorFailure "timeout")) (S (clock_reads st0))))
           (round_binary64 (wall_clock (env_with (VendorFailure "timeout")) (clock_reads st0))).
Proof.
  apply (execute_prompt_dispatch_error (env_with (VendorFailure "timeout")) 1 (req_of []) st0
           prompt_tone [("tone", JStr "formal")] OpenAIProvider "Answer in a formal tone."
           (OtherError "timeout")).
  - reflexivity.
  - vm_compute. reflexivity.
  - reflexivity.
  - vm_compute. reflexivity.
  - left. exists "timeout". split; reflexivity.
Defined.

(** A vendor reporting [2^1024] tokens: [float(tokens)] overflows in
    [calculate_cost], and the route records the error and raises. *)
Example run_cost_overflow :
  let '(s, r) := execute_prompt (env_with (VendorReply "fine" (JInt (2 ^ 1024)))) 1 (req_of []) st0 in
  r = Err (HTTPException 500 "Execution failed: int too large to convert to float") /\
  map status (ledger s) = ["error"] /\ map cost (ledger s) = [Fin 0] /\
  map execution_time (ledger s) = [Fin 3].
Proof. vm_compute. repeat split; reflexivity. Qed.










(* ------------------------------------------------------------------ *)
(** ** [LLMFactory] *)

(** [LLMFactory.get_provider(name)] returns a provider exactly when [name]
    is one of [list_providers()] and the API key of that provider is set;
    the provider returned is the one registered under [name]. *)
Theorem get_provider_iff (E : Env) (name : string) (p : provider) :
  get_provider E name = Ok p <->
  In name list_providers /\ provider_name p = name /\ api_key_set E p = true.
Proof.
  unfold get_provider, list_providers. cbv zeta. split.
  - intros H.
    repeat match type of H with
           | context [String.eqb ?a ?b] => destruct (String.eqb_spec a b)
           | context [api_key_set E ?q] => destruct (api_key_set E q) eqn:?
           end; inversion H; subst; simpl; auto.
  - intros [_ [<- Hk]]. destruct p; simpl; rewrite Hk; reflexivity.
Qed.

(** [LLMFactory.get_provider(name)] with a name that is not one of
    [list_providers()] raises a [ValueError] whose message names [name] and
    lists the available providers, joined with [", "]. *)
Theorem get_provider_unknown (E : Env) (name : string) :
  ~ In name list_providers ->
  get_provider E name
  = Err (ValueError ("Unknown LLM provider: " ++ name ++ ". Available providers: "
                     ++ join ", " list_providers)).
Proof.
  unfold get_provider, list_providers. intros Hn. cbv zeta.
  destruct (String.eqb_spec name "openai") as [->|_]; [exfalso; apply Hn; simpl; auto|].
  destruct (String.eqb_spec name "gemini") as [->|_]; [exfalso; apply Hn; simpl; auto|].
  destruct (String.eqb_spec name "claude") as [->|_]; [exfalso; apply Hn; simpl; auto|].
  reflexivity.
Qed.

Lemma get_provider_unknown_witness :
  ~ In "mistral" list_providers /\
  get_provider (env_with (VendorFailure "")) "mistral"
  = Err (ValueError ("Unknown LLM provider: mistral. Available providers: "
                     ++ join ", " list_providers)).
Proof.
  split; [simpl; intuition discriminate|].
  apply (get_provider_unknown (env_with (VendorFailure "")) "mistral").
  simpl; intuition discriminate.
Defined.

(* ------------------------------------------------------------------ *)
(** ** Costs are never negative *)

(** For every provider and model name, when [calculate_cost] returns on a
    non-negative token count, the cost is a float [>= 0.0] (not NaN), so
    [llm_cost_total.inc(cost)] accepts it. *)
Theorem calculate_cost_nonneg (p : provider) (t : Z) (m : string) (c : f64) :
  0 <= t -> calculate_cost p t m = Ok c -> fle (Fin 0) c = true /\ flt0 c = false.
Proof.
  intros Ht H. pose proof (cost_nonneg p t m c Ht H) as N. split; [exact N|].
  exact (fle0_flt0 c N).
Qed.

Lemma calculate_cost_nonneg_witness :
  0 <= 7 /\ calculate_cost GeminiProvider 7 "gemini-2.5-flash" = Ok (flit 0.000001) /\
  (fle (Fin 0) (flit 0.000001) = true /\ flt0 (flit 0.000001) = false).
Proof.
  assert (H : calculate_cost GeminiProvider 7 "gemini-2.5-flash" = Ok (flit 0.000001))
    by (vm_compute; reflexivity).
  split; [lia|]. split; [exact H|].
  exact (calculate_cost_nonneg GeminiProvider 7 "gemini-2.5-flash" _ ltac:(lia) H).
Defined.

(* ------------------------------------------------------------------ *)
(** ** The other exits of [execute_prompt] *)

(** An unknown prompt id: [execute_prompt] raises HTTP 404 ["Expert prompt
    not found"] and writes no row, no metric sample and no vendor request. *)
Theorem execute_prompt_not_found (E : Env) (pid : Z) (req : PromptExecutionRequest) (s : St) :
  expert_prompts E pid = None ->
  snd (execute_prompt E pid req s) = Err (HTTPException 404 "Expert prompt not found") /\
  ledger (fst (execute_prompt E pid req s)) = ledger s /\
  samples (fst (execute_prompt E pid req s)) = samples s /\
  vendor_calls (fst (execute_prompt E pid req s)) = vendor_calls s.
Proof. intros Hp. run_route. rewrite Hp. route_cbn. repeat split; reflexivity. Qed.

Lemma execute_prompt_not_found_witness :
  expert_prompts (env_with (VendorFailure "timeout")) 2 = None /\
  snd (execute_prompt (env_with (VendorFailure "timeout")) 2 (req_of []) st0)
  = Err (HTTPException 404 "Expert prompt not found") /\
  ledger (fst (execute_prompt (env_with (VendorFailure "timeout")) 2 (req_of []) st0)) = ledger st0 /\
  samples (fst (execute_prompt (env_with (VendorFailure "timeout")) 2 (req_of []) st0)) = samples st0 /\
  vendor_calls (fst (execute_prompt (env_with (VendorFailure "timeout")) 2 (req_of []) st0))
  = vendor_calls st0.
Proof.
  split; [reflexivity|].
  apply (execute_prompt_not_found (env_with (VendorFailure "timeout")) 2 (req_of []) st0).
  reflexivity.
Defined.

(** When [LLMFactory.get_provider] raises its [ValueError] (unknown name, or
    API key not set), [execute_prompt] raises HTTP 400 with that message and
    writes no row, no metric sample and no vendor request. *)
Theorem execute_prompt_provider_error (E : Env) (pid : Z) (req : PromptExecutionRequest)
  (s : St) (p : ExpertPrompt) (vv : dict) (m : string) :
  expert_prompts E pid = Some p ->
  validate_variables_against_schema (req_variables req) (variables_schema p) = Ok vv ->
  get_provider E (py_or (req_llm_provider req) "openai") = Err (ValueError m) ->
  snd (execute_prompt E pid req s) = Err (HTTPException 400 m) /\
  ledger (fst (execute_prompt E pid req s)) = ledger s /\
  samples (fst (execute_prompt E pid req s)) = samples s /\
  vendor_calls (fst (execute_prompt E pid req s)) = vendor_calls s.
Proof.
  intros Hp Hv Hg. run_route. rewrite Hp. route_cbn. rewrite Hv. route_cbn.
  rewrite Hg. route_cbn. repeat split; reflexivity.
Qed.

Lemma execute_prompt_provider_error_witness :
  snd (execute_prompt (env_with (VendorFailure "")) 1 (req_provider "mistral") st0)
  = Err (HTTPException 400
           "Unknown LLM provider: mistral. Available providers: openai, gemini, claude") /\
  ledger (fst (execute_prompt (env_with (VendorFailure "")) 1 (req_provider "mistral") st0))
  = ledger st0 /\
  samples (fst (execute_prompt (env_with (VendorFailure "")) 1 (req_provider "mistral") st0))
  = samples st0 /\
  vendor_calls (fst (execute_prompt (env_with (VendorFailure "")) 1 (req_provider "mistral") st0))
  = vendor_calls st0.
Proof.
  apply (execute_prompt_provider_error (env_with (VendorFailure "")) 1 (req_provider "mistral")
           st0 prompt_tone [("tone", JStr "formal")]);
    [reflexivity | vm_compute; reflexivity | reflexivity].
Defined.

(** When rendering the template raises [KeyError(k)] (a field with no
    variable), [execute_prompt] raises HTTP 400 ["Missing variable in
    template: "] followed by [repr(k)] (e.g. ['name']) and writes no row, no
    metric sample and no vendor request. *)
Theorem execute_prompt_missing_variable (E : Env) (pid : Z) (req : PromptExecutionRequest)
  (s : St) (p : ExpertPrompt) (vv : dict) (prov : provider) (k : string) :
  expert_prompts E pid = Some p ->
  validate_variables_against_schema (req_variables req) (variables_schema p) = Ok vv ->
  get_provider E (py_or (req_llm_provider req) "openai") = Ok prov ->
  format (template p) vv = Err (KeyError k) ->
  snd (execute_prompt E pid req s)
  = Err (HTTPException 400 ("Missing variable in template: " ++ py_repr_str k)) /\
  ledger (fst (execute_prompt E pid req s)) = ledger s /\
  samples (fst (execute_prompt E pid req s)) = samples s /\
  vendor_calls (fst (execute_prompt E pid req s)) = vendor_calls s.
Proof.
  intros Hp Hv Hg Hf. run_route. rewrite Hp. route_cbn. rewrite Hv. route_cbn.
  rewrite Hg. route_cbn. rewrite Hf. route_cbn. repeat split; reflexivity.
Qed.

Lemma execute_prompt_missing_variable_witness :
  snd (execute_prompt (env_template "Hello {name}") 1 (req_of []) st0)
  = Err (HTTPException 400 ("Missing variable in template: " ++ py_repr_str "name")) /\
  ledger (fst (execute_prompt (env_template "Hello {name}") 1 (req_of []) st0)) = ledger st0 /\
  samples (fst (execute_prompt (env_template "Hello {name}") 1 (req_of []) st0)) = samples st0 /\
  vendor_calls (fst (execute_prompt (env_template "Hello {name}") 1 (req_of []) st0))
  = vendor_calls st0.
Proof.
  apply (execute_prompt_missing_variable (env_template "Hello {name}") 1 (req_of []) st0
           {| template := "Hello {name}"; variables_schema := JObj [] |} [] OpenAIProvider "name");
    reflexivity.
Defined.

(** When rendering the template raises a [ValueError] (a stray brace) or an
    [IndexError] (a positional field such as [{}]), the 400 handlers do not
    catch it: [execute_prompt] writes one ["error"] row carrying the message,
    sends no vendor request, and raises HTTP 500 ["Execution failed: ..."]. *)
Theorem execute_prompt_malformed_template (E : Env) (pid : Z) (req : PromptExecutionRequest)
  (s : St) (p : ExpertPrompt) (vv : dict) (prov : provider) (e : exn) :
  expert_prompts E pid = Some p ->
  validate_variables_against_schema (req_variables req) (variables_schema p) = Ok vv ->
  get_provider E (py_or (req_llm_provider req) "openai") = Ok prov ->
  format (template p) vv = Err e ->
  (exists m, e = ValueError m \/ e = IndexError m) ->
  snd (execute_prompt E pid req s) = Err (HTTPException 500 ("Execution failed: " ++ exn_str e)) /\
  vendor_calls (fst (execute_prompt E pid req s)) = vendor_calls s /\
  exists row,
    ledger (fst (execute_prompt E pid req s)) = (ledger s ++ [row])%list /\
    status row = "error" /\ error_message row = Some (exn_str e).
Proof.
  intros Hp Hv Hg Hf [m [-> | ->]]; run_route; rewrite Hp; route_cbn; rewrite Hv; route_cbn;
    rewrite Hg; route_cbn; rewrite Hf; route_cbn;
    (split; [reflexivity | split; [reflexivity | eexists; repeat split]]).
Qed.

Lemma execute_prompt_malformed_template_witness :
  snd (execute_prompt (env_template "Hello {") 1 (req_of []) st0)
  = Err (HTTPException 500 ("Execution failed: "
                            ++ exn_str (ValueError "Single '{' encountered in format string"))) /\
  vendor_calls (fst (execute_prompt (env_template "Hello {") 1 (req_of []) st0))
  = vendor_calls st0 /\
  exists row,
    ledger (fst (execute_prompt (env_template "Hello {") 1 (req_of []) st0))
    = (ledger st0 ++ [row])%list /\
    status row = "error" /\
    error_message row = Some (exn_str (ValueError "Single '{' encountered in format string")).
Proof.
  apply (execute_prompt_malformed_template (env_template "Hello {") 1 (req_of []) st0
           {| template := "Hello {"; variables_schema := JObj [] |} [] OpenAIProvider
           (ValueError "Single '{' encountered in format string")); try reflexivity.
  exists "Single '{' encountered in format string". left. reflexivity.
Defined.

(** When the validation raises anything other than a [ValueError] (for
    instance a [TypeError] from [\"default\" in prop_schema] on a malformed
    schema), it is not turned into a 400: [execute_prompt] writes one
    ["error"] row carrying the message, sends no vendor request, and raises
    HTTP 500 ["Execution failed: ..."]. *)
Theorem execute_prompt_validation_crash (E : Env) (pid : Z) (req : PromptExecutionRequest)
  (s : St) (p : ExpertPrompt) (e : exn) :
  expert_prompts E pid = Some p ->
  validate_variables_against_schema (req_variables req) (variables_schema p) = Err e ->
  (forall m, e <> ValueError m) -> (forall c d, e <> HTTPException c d) ->
  snd (execute_prompt E pid req s) = Err (HTTPException 500 ("Execution failed: " ++ exn_str e)) /\
  vendor_calls (fst (execute_prompt E pid req s)) = vendor_calls s /\
  exists row,
    ledger (fst (execute_prompt E pid req s)) = (ledger s ++ [row])%list /\
    status row = "error" /\ error_message row = Some (exn_str e).
Proof.
  intros Hp Hv Hnv Hnh. run_route. rewrite Hp. route_cbn. rewrite Hv. route_cbn.
  destruct e as [c d|m|k|m|m|m|m|m];
    [exfalso; eapply Hnh; reflexivity | exfalso; eapply Hnv; reflexivity | ..];
    route_cbn; (split; [reflexivity | split; [reflexivity | eexists; repeat split]]).
Qed.

Lemma execute_prompt_validation_crash_witness :
  snd (execute_prompt env_bad_schema 1 (req_of []) st0)
  = Err (HTTPException 500 ("Execution failed: "
                            ++ exn_str (TypeError "argument of type is not iterable"))) /\
  vendor_calls (fst (execute_prompt env_bad_schema 1 (req_of []) st0)) = vendor_calls st0 /\
  exists row,
    ledger (fst (execute_prompt env_bad_schema 1 (req_of []) st0)) = (ledger st0 ++ [row])%list /\
    status row = "error" /\
    error_message row = Some (exn_str (TypeError "argument of type is not iterable")).
Proof.
  apply (execute_prompt_validation_crash env_bad_schema 1 (req_of []) st0
           {| template := "Hi";
              variables_schema := JObj [("properties", JObj [("tone", JInt 5)])] |}
           (TypeError "argument of type is not iterable"));
    [reflexivity | vm_compute; reflexivity | intros m H; discriminate H | intros c d H; discriminate H].
Defined.
(* ------------------------------------------------------------------ *)
(** ** The success exit of [execute_prompt] *)

Ltac ltb_facts :=
  repeat match goal with
         | H : (_ <? _) = false |- _ => apply Z.ltb_ge in H
         | H : (_ <? _) = true |- _ => apply Z.ltb_lt in H
         end.

Lemma execute_prompt_success_shape (E : Env) (pid : Z) (req : PromptExecutionRequest)
  (s : St) :
  forall resp, snd (execute_prompt E pid req s) = Ok resp ->
  exists row n p,
    ledger (fst (execute_prompt E pid req s)) = (ledger s ++ [row])%list /\
    id row = max_id (ledger s) + 1 + Z.of_nat (id_gap E (ledger s)) /\
    resp_execution_id resp = id row /\
    user_id row = current_user_id E /\ prompt_id row = pid /\ resp_prompt_id resp = pid /\
    status row = "success" /\ resp_status resp = "success" /\ error_message row = None /\
    output_text row = Some (resp_output resp) /\
    llm_provider row = resp_llm_provider resp /\ llm_model row = resp_llm_model resp /\
    tokens_used row = resp_tokens_used resp /\ cost row = resp_cost resp /\
    execution_time row = resp_execution_time resp /\
    resp_llm_provider resp = py_or (req_llm_provider req) "openai" /\
    resp_llm_model resp = py_or (req_llm_model req) "gpt-4" /\
    py_int (resp_tokens_used resp) = Some n /\ 0 <= n /\
    calculate_cost_py p (resp_tokens_used resp) (resp_llm_model resp) = Ok (resp_cost resp) /\
    samples (fst (execute_prompt E pid req s))
    = (samples s ++ [prompt_executions_total pid (resp_llm_provider resp) "success";
                     prompt_execution_duration pid (resp_llm_provider resp) (resp_execution_time resp);
                     llm_tokens_used (resp_llm_provider resp) (resp_llm_model resp) n;
                     llm_cost_total (resp_llm_provider resp) (resp_llm_model resp) (resp_cost resp)])%list /\
    get_provider E (resp_llm_provider resp) = Ok p /\
    vendor_calls (fst (execute_prompt E pid req s))
    = (vendor_calls s ++ [(p, resp_llm_model resp)])%list /\
    resp_execution_time resp = fsub (round_binary64 (wall_clock E (S (clock_reads s))))
                                    (round_binary64 (wall_clock E (clock_reads s))).
Proof.
  run_route. split_route.
  all: intros resp H; try discriminate H.
  all: inversion H; subst; clear H; ltb_facts.
  all: do 3 eexists; repeat split;
    first [eassumption | reflexivity | simpl; lia | cbn; rewrite <- !app_assoc; reflexivity].
Qed.

Lemma max_id_ge (l : list PromptExecutionHistory) (r : PromptExecutionHistory) :
  In r l -> id r <= max_id l.
Proof.
  induction l as [|a l IH]; simpl; [tauto|].
  intros [->|H]; [lia|]. specialize (IH H). lia.
Qed.







(** Every call of [execute_prompt] sends at most one vendor request, and only
    once the prompt was found, the variables validated, the provider built
    and the template rendered: the request goes to that provider, with the
    model [llm_model or "gpt-4"]. *)
Theorem execute_prompt_vendor_call (E : Env) (pid : Z) (req : PromptExecutionRequest) (s : St) :
  vendor_calls (fst (execute_prompt E pid req s)) = vendor_calls s \/
  exists p vv prov filled,
    expert_prompts E pid = Some p /\
    validate_variables_against_schema (req_variables req) (variables_schema p) = Ok vv /\
    get_provider E (py_or (req_llm_provider req) "openai") = Ok prov /\
    format (template p) vv = Ok filled /\
    vendor_calls (fst (execute_prompt E pid req s))
    = (vendor_calls s ++ [(prov, py_or (req_llm_model req) "gpt-4")])%list.
Proof.
  run_route. split_route.
  all: first [left; reflexivity
             | right; do 4 eexists; repeat split; first [reflexivity | eassumption]].
Qed.

Lemma execute_prompt_ledger_append (E : Env) (pid : Z) (req : PromptExecutionRequest) (s : St) :
  ledger (fst (execute_prompt E pid req s)) = ledger s \/
  exists row, ledger (fst (execute_prompt E pid req s)) = (ledger s ++ [row])%list /\
              forall r, In r (ledger s) -> id r < id row.
Proof.
  run_route. split_route.
  all: first [left; reflexivity
             | right; eexists; split;
               [reflexivity | intros r Hr; pose proof (max_id_ge _ _ Hr) as Hm; unfold max_id in Hm; cbn [id]; lia]].
Qed.

(* ------------------------------------------------------------------ *)
(** ** The ledger's ids and [get_execution] *)

Lemma ids_increasing_snoc (l : list PromptExecutionHistory) (row : PromptExecutionHistory) :
  ids_increasing l = true -> (forall r, In r l -> id r < id row) ->
  ids_increasing (l ++ [row])%list = true.
Proof.
  induction l as [|a l IH]; intros H Hlt; [reflexivity|].
  destruct l as [|b l'].
  - simpl. rewrite (proj2 (Z.ltb_lt _ _) (Hlt a (or_introl eq_refl))). reflexivity.
  - change (ids_increasing (a :: b :: l') = true) in H.
    change (((id a <? id b) && ids_increasing ((b :: l') ++ [row])%list)%bool = true).
    simpl in H. apply andb_true_iff in H as [H1 H2]. rewrite H1.
    apply IH; [exact H2 | intros r Hr; apply Hlt; right; exact Hr].
Qed.

Lemma find_app_none {A} (f : A -> bool) (l l' : list A) :
  (forall x, In x l -> f x = false) -> find f (l ++ l')%list = find f l'.
Proof.
  induction l as [|x l IH]; simpl; intros H; [reflexivity|].
  rewrite (H x (or_introl eq_refl)). apply IH. auto.
Qed.

(** [execute_prompt] keeps the ids of the ledger's rows strictly
    increasing along the table: the row it may add gets an id greater than
    every id already in it. *)
Theorem execute_prompt_ids_increasing (E : Env) (pid : Z) (req : PromptExecutionRequest) (s : St) :
  ids_increasing (ledger s) = true ->
  ids_increasing (ledger (fst (execute_prompt E pid req s))) = true.
Proof.
  intros H. destruct (execute_prompt_ledger_append E pid req s) as [-> | [row [-> Hid]]].
  - exact H.
  - apply ids_increasing_snoc; assumption.
Qed.

Lemma execute_prompt_ids_increasing_witness :
  ids_increasing (ledger st0) = true /\
  ids_increasing (ledger (fst (execute_prompt (env_with (VendorFailure "timeout")) 1 (req_of []) st0)))
  = true.
Proof.
  split; [reflexivity|].
  apply (execute_prompt_ids_increasing (env_with (VendorFailure "timeout")) 1 (req_of []) st0).
  reflexivity.
Defined.

(** After [execute_prompt] returned a response, [get_execution] of its [execution_id] by the same user returns
    the row it recorded: status ["success"], and the response's prompt id,
    output, provider, model, tokens, cost and execution time. *)
Theorem get_execution_after_success (E : Env) (pid : Z) (req : PromptExecutionRequest)
  (s : St) (resp : PromptExecutionResponse) :
  snd (execute_prompt E pid req s) = Ok resp ->
  exists row,
    get_execution E (fst (execute_prompt E pid req s)) (resp_execution_id resp) = Ok row /\
    status row = "success" /\ prompt_id row = resp_prompt_id resp /\
    output_text row = Some (resp_output resp) /\
    llm_provider row = resp_llm_provider resp /\ llm_model row = resp_llm_model resp /\
    tokens_used row = resp_tokens_used resp /\ cost row = resp_cost resp /\
    execution_time row = resp_execution_time resp.
Proof.
  intros H.
  destruct (execute_prompt_success_shape E pid req s resp H)
    as [row [n [p (Hl & Hid & Hrid & Hu & Hpid & Hrpid & Hst & _ & _ & Hout & Hprov & Hmod &
                   Htok & Hcost & Htime & _)]]].
  exists row. unfold get_execution. rewrite Hl.
  rewrite find_app_none.
  - simpl. rewrite Hrid, Hu, !Z.eqb_refl. simpl.
    repeat split; congruence.
  - intros x Hx. apply max_id_ge in Hx.
    rewrite Hrid, Hid. apply andb_false_intro1. apply Z.eqb_neq. lia.
Qed.

Lemma get_execution_after_success_witness :
  exists row,
    get_execution (env_with (VendorReply "fine" (JInt 1000)))
      (fst (execute_prompt (env_with (VendorReply "fine" (JInt 1000))) 1 (req_of []) st0))
      (resp_execution_id resp_fine) = Ok row /\
    status row = "success" /\ prompt_id row = resp_prompt_id resp_fine /\
    output_text row = Some (resp_output resp_fine) /\
    llm_provider row = resp_llm_provider resp_fine /\ llm_model row = resp_llm_model resp_fine /\
    tokens_used row = resp_tokens_used resp_fine /\ cost row = resp_cost resp_fine /\
    execution_time row = resp_execution_time resp_fine.
Proof.
  apply (get_execution_after_success (env_with (VendorReply "fine" (JInt 1000))) 1 (req_of []) st0
           resp_fine); vm_compute; reflexivity.
Defined.

(** [get_execution] returns only a row of the ledger that has the requested
    id and belongs to the current user; when no such row exists it raises
    HTTP 404 ["Execution not found"], also when the id is another user's. *)
Theorem get_execution_own_rows (E : Env) (s : St) (eid : Z) :
  (forall r, get_execution E s eid = Ok r ->
             In r (ledger s) /\ id r = eid /\ user_id r = current_user_id E) /\
  ((forall r, In r (ledger s) -> id r = eid -> user_id r <> current_user_id E) ->
   get_execution E s eid = Err (HTTPException 404 "Execution not found")).
Proof.
  unfold get_execution. split.
  - intros r. destruct (find _ (ledger s)) as [r'|] eqn:Hf; intros H; inversion H; subst r'.
    apply find_some in Hf as [Hin Hb]. apply andb_true_iff in Hb as [H1 H2].
    apply Z.eqb_eq in H1, H2. auto.
  - intros Hn. destruct (find _ (ledger s)) as [r'|] eqn:Hf; [|reflexivity].
    apply find_some in Hf as [Hin Hb]. apply andb_true_iff in Hb as [H1 H2].
    apply Z.eqb_eq in H1, H2. exfalso. exact (Hn r' Hin H1 H2).
Qed.

Lemma get_execution_own_rows_witness :
  get_execution (env_with (VendorFailure "")) st_two_users 2
  = Err (HTTPException 404 "Execution not found").
Proof.
  apply (proj2 (get_execution_own_rows (env_with (VendorFailure "")) st_two_users 2)).
  intros r Hr. simpl in Hr.
  destruct Hr as [<-|[<-|[<-|[]]]]; simpl; intros H; try discriminate H; intros H2; discriminate H2.
Defined.

(* ------------------------------------------------------------------ *)
(** ** [get_execution_history] *)

Section History.
Variable key : PromptExecutionHistory -> Z.

Lemma in_insert_desc (x y : PromptExecutionHistory) (l : list PromptExecutionHistory) :
  In x (insert_desc key y l) <-> y = x \/ In x l.
Proof.
  induction l as [|z l IH]; simpl; [tauto|].
  destruct (key z <? key y); simpl; [tauto|]. rewrite IH. tauto.
Qed.

Lemma in_sort_desc_acc (x : PromptExecutionHistory) (l acc : list PromptExecutionHistory) :
  In x (fold_left (fun acc y => insert_desc key y acc) l acc) <-> In x l \/ In x acc.
Proof.
  revert acc. induction l as [|y l IH]; simpl; intros acc; [tauto|].
  rewrite IH, in_insert_desc. tauto.
Qed.

Lemma in_sort_desc (x : PromptExecutionHistory) (l : list PromptExecutionHistory) :
  In x (sort_desc key l) <-> In x l.
Proof. unfold sort_desc. rewrite in_sort_desc_acc. simpl. tauto. Qed.

Let desc (a b : PromptExecutionHistory) : Prop := key b <= key a.

Lemma insert_desc_hd (a x : PromptExecutionHistory) (l : list PromptExecutionHistory) :
  HdRel desc a l -> key x <= key a -> HdRel desc a (insert_desc key x l).
Proof.
  intros H Hx. destruct l as [|y l]; simpl.
  - constructor. unfold desc. exact Hx.
  - destruct (key y <? key x); constructor; unfold desc; [exact Hx|].
    inversion H; assumption.
Qed.

Lemma insert_desc_sorted (x : PromptExecutionHistory) (l : list PromptExecutionHistory) :
  Sorted desc l -> Sorted desc (insert_desc key x l).
Proof.
  induction l as [|y l IH]; simpl; intros H.
  - repeat constructor.
  - destruct (key y <? key x) eqn:E.
    + apply Z.ltb_lt in E. constructor; [assumption|]. constructor. unfold desc. lia.
    + apply Z.ltb_ge in E. inversion H; subst.
      constructor; [apply IH; assumption|]. apply insert_desc_hd; assumption.
Qed.

Lemma sort_desc_sorted (l : list PromptExecutionHistory) : Sorted desc (sort_desc key l).
Proof.
  unfold sort_desc.
  assert (H : forall acc, Sorted desc acc ->
                Sorted desc (fold_left (fun acc y => insert_desc key y acc) l acc)).
  { induction l as [|y l IH]; simpl; intros acc Hacc; [assumption|].
    apply IH, insert_desc_sorted, Hacc. }
  apply H. constructor.
Qed.

Lemma desc_transitive : Relations_1.Transitive desc.
Proof. unfold Relations_1.Transitive, desc. intros. lia. Qed.

Lemma strongly_sorted_skipn {A} (R : A -> A -> Prop) (n : nat) (l : list A) :
  StronglySorted R l -> StronglySorted R (skipn n l).
Proof.
  revert l. induction n as [|n IH]; intros [|x l] H; simpl; auto.
  apply IH. inversion H; assumption.
Qed.

Lemma strongly_sorted_firstn {A} (R : A -> A -> Prop) (n : nat) (l : list A) :
  StronglySorted R l -> StronglySorted R (firstn n l).
Proof.
  revert l. induction n as [|n IH]; intros [|x l] H; simpl; try constructor.
  - inversion H; subst. apply IH. assumption.
  - inversion H; subst. apply Forall_forall. intros y Hy.
    rewrite Forall_forall in *. apply H3.
    rewrite <- (firstn_skipn n l). apply in_or_app. left. exact Hy.
Qed.

Lemma in_skipn' {A} (n : nat) (l : list A) (x : A) : In x (skipn n l) -> In x l.
Proof. intros H. rewrite <- (firstn_skipn n l). apply in_or_app. right. exact H. Qed.

Lemma in_firstn' {A} (n : nat) (l : list A) (x : A) : In x (firstn n l) -> In x l.
Proof. intros H. rewrite <- (firstn_skipn n l). apply in_or_app. left. exact H. Qed.

End History.

(** Every row [get_execution_history] returns is a ledger row of the current
    user; a [prompt_id] filter other than [0] and a [status] filter other
    than [""] are applied ([0] and [""] are falsy and filter nothing). *)
Theorem get_execution_history_filters (created_at : PromptExecutionHistory -> Z)
  (E : Env) (s : St) (skip limit : Z) (pid : option Z) (st : option string)
  (r : PromptExecutionHistory) :
  In r (get_execution_history created_at E s skip limit pid st) ->
  In r (ledger s) /\ user_id r = current_user_id E /\
  (forall p, pid = Some p -> p <> 0 -> prompt_id r = p) /\
  (forall x, st = Some x -> x <> "" -> status r = x).
Proof.
  unfold get_execution_history, sql_limit, sql_offset. intros H.
  assert (H' : In r (filter (fun r => user_id r =? current_user_id E) (ledger s)) /\
               (forall p, int_filter pid = Some p -> prompt_id r = p) /\
               (forall x, str_filter st = Some x -> status r = x)).
  { destruct (limit <? 0); [|apply in_firstn' in H]; apply in_skipn' in H;
      apply in_sort_desc in H;
      destruct (str_filter st) as [x|]; destruct (int_filter pid) as [p|];
      repeat match goal with
             | H : In r (filter (fun r => String.eqb (status r) ?x) _) |- _ =>
                 apply filter_In in H as [H ?Hx]; apply String.eqb_eq in Hx
             | H : In r (filter (fun r => prompt_id r =? ?p) _) |- _ =>
                 apply filter_In in H as [H ?Hy]; apply Z.eqb_eq in Hy
             end;
      (split; [exact H | split; intros ? E1; inversion E1; congruence]). }
  destruct H' as [Hin [Hp Hs]]. apply filter_In in Hin as [Hin Hu]. apply Z.eqb_eq in Hu.
  split; [exact Hin | split; [exact Hu | split]].
  - intros p -> Hp0. apply Hp. simpl. apply Z.eqb_neq in Hp0. rewrite Hp0. reflexivity.
  - intros x -> Hx0. apply Hs. simpl. apply String.eqb_neq in Hx0. rewrite Hx0. reflexivity.
Qed.

Lemma get_execution_history_filters_witness :
  In (row_of 3 7 2 "error")
     (get_execution_history id (env_with (VendorFailure "")) st_two_users 0 100 (Some 2) None) /\
  In (row_of 3 7 2 "error") (ledger st_two_users) /\
  user_id (row_of 3 7 2 "error") = current_user_id (env_with (VendorFailure "")) /\
  (forall p, Some 2 = Some p -> p <> 0 -> prompt_id (row_of 3 7 2 "error") = p) /\
  (forall x, None = Some x -> x <> "" -> status (row_of 3 7 2 "error") = x).
Proof.
  assert (H : In (row_of 3 7 2 "error")
                (get_execution_history id (env_with (VendorFailure "")) st_two_users 0 100
                   (Some 2) None)) by (vm_compute; left; reflexivity).
  split; [exact H|].
  exact (get_execution_history_filters id (env_with (VendorFailure "")) st_two_users 0 100
           (Some 2) None (row_of 3 7 2 "error") H).
Defined.

(** [get_execution_history] returns its rows by decreasing [created_at],
    and at most [limit] of them when [limit] is non-negative. *)
Theorem get_execution_history_order (created_at : PromptExecutionHistory -> Z)
  (E : Env) (s : St) (skip limit : Z) (pid : option Z) (st : option string) :
  Sorted (fun a b => created_at b <= created_at a)
         (get_execution_history created_at E s skip limit pid st) /\
  (0 <= limit ->
   (List.length (get_execution_history created_at E s skip limit pid st) <= Z.to_nat limit)%nat).
Proof.
  unfold get_execution_history, sql_limit, sql_offset. split.
  - apply StronglySorted_Sorted.
    set (l := sort_desc created_at _).
    assert (Hl : StronglySorted (fun a b => created_at b <= created_at a) l).
    { apply Sorted_StronglySorted; [apply desc_transitive | apply sort_desc_sorted]. }
    destruct (limit <? 0);
      [|apply strongly_sorted_firstn]; apply strongly_sorted_skipn; exact Hl.
  - intros H. destruct (limit <? 0) eqn:E1; [apply Z.ltb_lt in E1; lia|].
    apply firstn_le_length.
Qed.

Lemma get_execution_history_order_witness :
  Sorted (fun a b => id b <= id a)
         (get_execution_history id (env_with (VendorFailure "")) st_two_users 0 1 None None) /\
  (List.length (get_execution_history id (env_with (VendorFailure "")) st_two_users 0 1 None None)
   <= Z.to_nat 1)%nat.
Proof.
  split; [exact (proj1 (get_execution_history_order id (env_with (VendorFailure "")) st_two_users
                          0 1 None None))|].
  apply (proj2 (get_execution_history_order id (env_with (VendorFailure "")) st_two_users
                  0 1 None None)). lia.
Defined.

(* ------------------------------------------------------------------ *)
(** ** Gemini's token estimate *)

(** With the Gemini provider, the tokens a successful [execute_prompt]
    reports and prices are the whitespace-separated words of the rendered
    prompt plus those of the answer, whatever usage the vendor returns; the
    cost, when [GeminiProvider.calculate_cost] of that count and the
    request's model computes one, is that cost. *)
Theorem execute_prompt_gemini_tokens (E : Env) (pid : Z) (req : PromptExecutionRequest)
  (s : St) (p : ExpertPrompt) (vv : dict) (filled text : string) (usage : json) (c : f64) :
  expert_prompts E pid = Some p ->
  validate_variables_against_schema (req_variables req) (variables_schema p) = Ok vv ->
  get_provider E (py_or (req_llm_provider req) "openai") = Ok GeminiProvider ->
  format (template p) vv = Ok filled ->
  vendor E GeminiProvider filled (py_or (req_llm_model req) "gpt-4") (req_temperature req)
    (req_max_tokens req) = VendorReply text usage ->
  calculate_cost GeminiProvider (Z.of_nat (words filled + words text))
    (py_or (req_llm_model req) "gpt-4") = Ok c ->
  exists resp,
    snd (execute_prompt E pid req s) = Ok resp /\
    resp_tokens_used resp = JInt (Z.of_nat (words filled + words text)) /\
    resp_cost resp = c.
Proof.
  intros Hp Hv Hg Hf Hx Hc. run_route.
  rewrite Hp. route_cbn. rewrite Hv. route_cbn. rewrite Hg. route_cbn.
  rewrite Hf. route_cbn. rewrite Hx. route_cbn. unfold calculate_cost_py. route_cbn.
  rewrite Hc. route_cbn.
  rewrite (fle0_flt0 c (cost_nonneg _ _ _ c (Nat2Z.is_nonneg _) Hc)). route_cbn.
  repeat (match goal with |- context [?a <? ?b] => destruct (a <? b) eqn:? end; route_cbn).
  all: ltb_facts.
  all: try (exfalso; lia).
  eexists; split; [reflexivity | split; reflexivity].
Qed.

Lemma execute_prompt_gemini_tokens_witness :
  exists resp,
    snd (execute_prompt (env_with (VendorReply "fine" (JInt 0))) 1 (req_provider "gemini") st0)
    = Ok resp /\
    resp_tokens_used resp = JInt (Z.of_nat (words "Answer in a formal tone." + words "fine")) /\
    resp_cost resp = flit 0.000002.
Proof.
  apply (execute_prompt_gemini_tokens (env_with (VendorReply "fine" (JInt 0))) 1
           (req_provider "gemini") st0 prompt_tone [("tone", JStr "formal")]
           "Answer in a formal tone." "fine" (JInt 0) (flit 0.000002));
    first [reflexivity | vm_compute; reflexivity].
Defined.

(* ------------------------------------------------------------------ *)
(** ** [generate_example_variables] and [get_variable_description] *)

Lemma lookup_dict_set_eq (k : string) (v : json) (d : dict) :
  lookup k (dict_set k v d) = Some v.
Proof.
  induction d as [|[k' v'] d IH]; simpl; [rewrite String.eqb_refl; reflexivity|].
  destruct (String.eqb k k') eqn:E; simpl; rewrite ?E; [reflexivity | exact IH].
Qed.

Lemma lookup_dict_set_neq (k k0 : string) (v : json) (d : dict) :
  k <> k0 -> lookup k (dict_set k0 v d) = lookup k d.
Proof.
  intros Hne. induction d as [|[k' v'] d IH]; simpl.
  - destruct (String.eqb_spec k k0); congruence.
  - destruct (String.eqb k0 k') eqn:E; simpl.
    + apply String.eqb_eq in E; subst k'. destruct (String.eqb_spec k k0); congruence.
    + rewrite IH; reflexivity.
Qed.

Lemma dict_set_new (k : string) (v : json) (d : dict) :
  lookup k d = None -> dict_set k v d = (d ++ [(k, v)])%list.
Proof.
  induction d as [|[k' v'] d IH]; simpl; [reflexivity|].
  destruct (String.eqb k k'); [discriminate|]. intros H. rewrite IH by exact H. reflexivity.
Qed.

Lemma lookup_notin {A} (k : string) (l : list (string * A)) :
  ~ In k (map fst l) -> lookup k l = None.
Proof.
  induction l as [|[k' v] l IH]; simpl; [reflexivity|].
  intros Hn. destruct (String.eqb_spec k k') as [->|_]; [tauto|]. apply IH; tauto.
Qed.

Lemma generate_loop_other (props : list (string * json)) (e out : dict) (k : string) :
  generate_loop props e = Ok out -> ~ In k (map fst props) -> lookup k out = lookup k e.
Proof.
  revert e. induction props as [|[p ps] props IH]; simpl; intros e H Hk.
  - inversion H; reflexivity.
  - destruct (example_value p ps) as [[v|]|]; try discriminate.
    + rewrite (IH _ H) by tauto. apply lookup_dict_set_neq. intros ->; tauto.
    + apply (IH _ H); tauto.
Qed.

Lemma generate_loop_prop (props : list (string * json)) (e out : dict) :
  generate_loop props e = Ok out -> NoDup (map fst props) ->
  forall k ps, In (k, ps) props ->
  exists o, example_value k ps = Ok o /\
            lookup k out = match o with Some v => Some v | None => lookup k e end.
Proof.
  revert e. induction props as [|[p ps0] props IH]; simpl; intros e H Hnd k ps Hin; [tauto|].
  inversion Hnd as [|? ? Hp Hnd']; subst.
  destruct (example_value p ps0) as [[v|]|] eqn:Ev; try discriminate.
  - destruct Hin as [Heq|Hin].
    + inversion Heq; subst. exists (Some v). split; [exact Ev|].
      rewrite (generate_loop_other _ _ _ _ H Hp). apply lookup_dict_set_eq.
    + destruct (IH _ H Hnd' k ps Hin) as (o & Ho & Hl). exists o. split; [exact Ho|].
      rewrite Hl. destruct o; [reflexivity|]. apply lookup_dict_set_neq.
      intros ->. apply Hp. exact (in_map fst _ _ Hin).
  - destruct Hin as [Heq|Hin].
    + inversion Heq; subst. exists None. split; [exact Ev|].
      exact (generate_loop_other _ _ _ _ H Hp).
    + exact (IH _ H Hnd' k ps Hin).
Qed.

Lemma generate_example_variables_loop (kv props : list (string * json)) (ex : dict) :
  generate_example_variables (JObj kv) = Ok ex ->
  lookup "properties" kv = Some (JObj props) ->
  generate_loop props [] = Ok ex.
Proof. unfold generate_example_variables. intros H Hp. rewrite Hp in H. exact H. Qed.

(** [generate_example_variables] gives a declared property (of a dict of
    uniquely named properties, each a dict) its [example] when it has one,
    else its [default], else the first element of a non-empty [enum]
    list. *)
Theorem generate_example_variables_priority (kv props : list (string * json)) (ex : dict)
  (k : string) (ps : list (string * json)) :
  generate_example_variables (JObj kv) = Ok ex ->
  lookup "properties" kv = Some (JObj props) -> NoDup (map fst props) ->
  lookup k props = Some (JObj ps) ->
  (forall x, lookup "example" ps = Some x -> lookup k ex = Some x) /\
  (forall d, lookup "example" ps = None -> lookup "default" ps = Some d ->
             lookup k ex = Some d) /\
  (forall x xs, lookup "example" ps = None -> lookup "default" ps = None ->
                lookup "enum" ps = Some (JArr (x :: xs)) -> lookup k ex = Some x).
Proof.
  intros H Hp Hnd Hk.
  destruct (generate_loop_prop _ _ _ (generate_example_variables_loop _ _ _ H Hp) Hnd
              k (JObj ps) (lookup_in _ _ _ Hk)) as (o & Ho & Hl).
  unfold example_value, py_contains, py_getitem, mem in Ho.
  split; [|split].
  - intros x Hx. rewrite Hx in Ho. simpl in Ho. inversion Ho; subst. exact Hl.
  - intros d Hx Hd. rewrite Hx, Hd in Ho. simpl in Ho. inversion Ho; subst. exact Hl.
  - intros x xs Hx Hd He. rewrite Hx, Hd, He in Ho. simpl in Ho. inversion Ho; subst.
    exact Hl.
Qed.

Lemma generate_example_variables_priority_witness :
  generate_example_variables
    (JObj [("properties", JObj [("tone", JObj [("enum", JArr [JStr "formal"; JStr "casual"])])])])
  = Ok [("tone", JStr "formal")] /\
  ((forall x, lookup "example" [("enum", JArr [JStr "formal"; JStr "casual"])] = Some x ->
              lookup "tone" [("tone", JStr "formal")] = Some x) /\
   (forall d, lookup "example" [("enum", JArr [JStr "formal"; JStr "casual"])] = None ->
              lookup "default" [("enum", JArr [JStr "formal"; JStr "casual"])] = Some d ->
              lookup "tone" [("tone", JStr "formal")] = Some d) /\
   (forall x xs, lookup "example" [("enum", JArr [JStr "formal"; JStr "casual"])] = None ->
                 lookup "default" [("enum", JArr [JStr "formal"; JStr "casual"])] = None ->
                 lookup "enum" [("enum", JArr [JStr "formal"; JStr "casual"])]
                 = Some (JArr (x :: xs)) ->
                 lookup "tone" [("tone", JStr "formal")] = Some x)).
Proof.
  split; [reflexivity|].
  apply (generate_example_variables_priority
           [("properties", JObj [("tone", JObj [("enum", JArr [JStr "formal"; JStr "casual"])])])]
           [("tone", JObj [("enum", JArr [JStr "formal"; JStr "casual"])])]
           [("tone", JStr "formal")] "tone" [("enum", JArr [JStr "formal"; JStr "casual"])]);
    [reflexivity | reflexivity | repeat constructor; simpl; tauto | reflexivity].
Defined.

(** When a declared property has no [example], no [default] and no
    non-empty [enum], [generate_example_variables] gives it
    ["example_" + name] if it has no [type], and leaves it out if its
    [type] is a string other than the six it knows; every name it returns
    is a declared property. *)
Theorem generate_example_variables_fallback (kv props : list (string * json)) (ex : dict) :
  generate_example_variables (JObj kv) = Ok ex ->
  lookup "properties" kv = Some (JObj props) -> NoDup (map fst props) ->
  (forall k, mem k ex = true -> In k (map fst props)) /\
  (forall k ps, lookup k props = Some (JObj ps) ->
     lookup "example" ps = None -> lookup "default" ps = None ->
     (forall en, lookup "enum" ps = Some en -> py_truthy en = false) ->
     (lookup "type" ps = None -> lookup k ex = Some (JStr ("example_" ++ k))) /\
     (forall t, lookup "type" ps = Some (JStr t) -> ~ In t example_types ->
                lookup k ex = None)).
Proof.
  intros H Hp Hnd. pose proof (generate_example_variables_loop _ _ _ H Hp) as Hg.
  split.
  - intros k Hm. destruct (in_dec string_dec k (map fst props)) as [|Hn]; [assumption|].
    unfold mem in Hm. rewrite (generate_loop_other _ _ _ _ Hg Hn) in Hm. discriminate.
  - intros k ps Hk Hx Hd Hen.
    destruct (generate_loop_prop _ _ _ Hg Hnd k (JObj ps) (lookup_in _ _ _ Hk))
      as (o & Ho & Hl).
    unfold example_value, py_contains, py_getitem, py_get, mem in Ho.
    rewrite Hx, Hd in Ho.
    destruct (lookup "enum" ps) as [en|] eqn:He;
      [rewrite (Hen en eq_refl) in Ho|]; simpl in Ho.
    + split.
      * intros Ht. rewrite Ht in Ho. inversion Ho; subst. exact Hl.
      * intros t Ht Hn. rewrite Ht in Ho.
        assert (Hf : forall u, In u example_types -> String.eqb t u = false)
          by (intros u Hu; apply String.eqb_neq; intros ->; tauto).
        rewrite !Hf in Ho by (simpl; tauto). simpl in Ho. inversion Ho; subst. exact Hl.
    + split.
      * intros Ht. rewrite Ht in Ho. inversion Ho; subst. exact Hl.
      * intros t Ht Hn. rewrite Ht in Ho.
        assert (Hf : forall u, In u example_types -> String.eqb t u = false)
          by (intros u Hu; apply String.eqb_neq; intros ->; tauto).
        rewrite !Hf in Ho by (simpl; tauto). simpl in Ho. inversion Ho; subst. exact Hl.
Qed.

Lemma generate_example_variables_fallback_witness :
  generate_example_variables (JObj [("properties", JObj props_mixed)])
  = Ok [("note", JStr "example_note")] /\
  (forall k, mem k [("note", JStr "example_note")] = true -> In k (map fst props_mixed)) /\
  (forall k ps, lookup k props_mixed = Some (JObj ps) ->
     lookup "example" ps = None -> lookup "default" ps = None ->
     (forall en, lookup "enum" ps = Some en -> py_truthy en = false) ->
     (lookup "type" ps = None ->
      lookup k [("note", JStr "example_note")] = Some (JStr ("example_" ++ k))) /\
     (forall t, lookup "type" ps = Some (JStr t) -> ~ In t example_types ->
                lookup k [("note", JStr "example_note")] = None)).
Proof.
  split; [reflexivity|].
  apply (generate_example_variables_fallback [("properties", JObj props_mixed)] props_mixed
           [("note", JStr "example_note")]);
    [reflexivity | reflexivity | repeat constructor; simpl; intuition discriminate].
Defined.

Lemma example_value_typed (n t : string) :
  In t example_types ->
  exists v, example_value n (JObj [("type", JStr t)]) = Ok (Some v) /\ is_type t v = Some true.
Proof.
  unfold example_types; simpl. intros Ht.
  repeat destruct Ht as [<-|Ht]; try contradiction; eexists; split; reflexivity.
Qed.

Lemma generate_loop_typed (decl : list (string * string)) (e : dict) :
  NoDup (map fst decl) -> Forall (fun nt => In (snd nt) example_types) decl ->
  (forall n, In n (map fst decl) -> lookup n e = None) ->
  exists added,
    generate_loop (map (fun '(n, t) => (n, JObj [("type", JStr t)])) decl) e
    = Ok (e ++ added)%list /\
    map fst added = map fst decl /\
    (forall n t, In (n, t) decl -> exists v, lookup n added = Some v /\ is_type t v = Some true).
Proof.
  revert e. induction decl as [|[n t] decl IH]; simpl; intros e Hnd Hty He.
  - exists []. rewrite app_nil_r. split; [reflexivity | split; [reflexivity | tauto]].
  - inversion Hnd as [|? ? Hn Hnd']; subst. inversion Hty as [|? ? Ht Hty']; subst.
    destruct (example_value_typed n t Ht) as (v & Ev & Hv). rewrite Ev.
    rewrite dict_set_new by (apply He; left; reflexivity).
    destruct (IH (e ++ [(n, v)])%list Hnd' Hty') as (added & Hg & Hk & Hl).
    { intros m Hm. rewrite lookup_app_none by (apply He; right; exact Hm). simpl.
      destruct (String.eqb_spec m n) as [->|_]; [contradiction | reflexivity]. }
    exists ((n, v) :: added). rewrite <- app_assoc in Hg. split; [exact Hg|].
    split; [simpl; rewrite Hk; reflexivity|].
    intros m u [Heq|Hin].
    + inversion Heq; subst. exists v. simpl. rewrite String.eqb_refl. auto.
    + destruct (Hl m u Hin) as (w & Hw & Hwt). exists w. simpl.
      destruct (String.eqb_spec m n) as [->|_]; [|auto].
      exfalso. apply Hn. exact (in_map fst _ _ Hin).
Qed.

Lemma oconcat_all_nil {A} (l : list (option (list A))) :
  (forall x, In x l -> x = Some []) -> oconcat l = Some [].
Proof.
  induction l as [|o l IH]; simpl; intros H; [reflexivity|].
  rewrite (H o (or_introl eq_refl)), IH by auto. reflexivity.
Qed.

Lemma enrich_all_present (props : list (string * json)) (e : dict) :
  (forall p, In p (map fst props) -> mem p e = true) -> enrich props e = Ok e.
Proof.
  induction props as [|[p ps] props IH]; simpl; intros H; [reflexivity|].
  rewrite (H p (or_introl eq_refl)). apply IH. auto.
Qed.

Lemma iter_errors_typed (f : nat) (root : json) (decl : list (string * string))
  (req : list string) (ex : dict) :
  (forall n t, In (n, t) decl -> exists v, lookup n ex = Some v /\ is_type t v = Some true) ->
  (forall k, In k req -> mem k ex = true) ->
  iter_errors (S (S f)) root (typed_schema decl req) (JObj ex) = Some [].
Proof.
  intros Hv Hm. unfold typed_schema. simpl.
  match goal with
  | |- context [oconcat (map ?f (map ?g decl))] =>
      rewrite (oconcat_all_nil (map f (map g decl)))
  end.
  2:{ intros x Hx. apply in_map_iff in Hx as [[p sub] [<- Hx]].
      apply in_map_iff in Hx as [[n t] [Heq Hin]]. simpl in Heq. injection Heq as <- <-.
      destruct (Hv n t Hin) as (v & Hl & Ht). simpl. rewrite Hl.
      cbn - [is_type]. rewrite Ht. reflexivity. }
  match goal with
  | |- context [oconcat (map ?f (map JStr req))] =>
      rewrite (oconcat_all_nil (map f (map JStr req)))
  end.
  2:{ intros x Hx. apply in_map_iff in Hx as [y [<- Hy]].
      apply in_map_iff in Hy as [k [<- Hk]]. simpl. rewrite (Hm k Hk). reflexivity. }
  reflexivity.
Qed.

(** For a schema whose properties, uniquely named, each have one of the six
    types [generate_example_variables] knows, and whose required names are
    declared, [generate_example_variables] returns one value per property,
    in declaration order, and [validate_variables_against_schema] accepts
    those values and returns them unchanged. *)
Theorem generate_then_validate (decl : list (string * string)) (req : list string) :
  NoDup (map fst decl) -> Forall (fun nt => In (snd nt) example_types) decl ->
  (forall k, In k req -> In k (map fst decl)) ->
  exists ex, generate_example_variables (typed_schema decl req) = Ok ex /\
             map fst ex = map fst decl /\
             validate_variables_against_schema ex (typed_schema decl req) = Ok ex.
Proof.
  intros Hnd Hty Hreq.
  destruct (generate_loop_typed decl [] Hnd Hty (fun _ _ => eq_refl)) as (ex & Hg & Hk & Hv).
  exists ex. split; [exact Hg|]. split; [exact Hk|].
  assert (Hm : forall k, In k (map fst decl) -> mem k ex = true).
  { intros k Hin. apply in_map_iff in Hin as [[k' t] [Heq Hin]]. simpl in Heq; subst k'.
    destruct (Hv k t Hin) as (v & Hl & _). unfold mem. rewrite Hl. reflexivity. }
  unfold validate_variables_against_schema.
  change recursion_limit with (S (S 998)).
  rewrite (iter_errors_typed 998 _ decl req ex Hv (fun k Hk => Hm k (Hreq k Hk))).
  unfold typed_schema. cbn [py_truthy negb lookup String.eqb Ascii.eqb Bool.eqb].
  apply enrich_all_present.
  intros p Hp. rewrite map_map in Hp.
  apply Hm. erewrite map_ext; [exact Hp|]. intros [n t]; reflexivity.
Qed.

Lemma generate_then_validate_witness :
  exists ex,
    generate_example_variables
      (typed_schema [("topic", "string"); ("count", "integer")] ["topic"]) = Ok ex /\
    map fst ex = map fst [("topic", "string"); ("count", "integer")] /\
    validate_variables_against_schema ex
      (typed_schema [("topic", "string"); ("count", "integer")] ["topic"]) = Ok ex.
Proof.
  apply generate_then_validate.
  - repeat constructor; simpl; intuition discriminate.
  - repeat constructor; simpl; tauto.
  - intros k [<-|[]]; simpl; tauto.
Defined.

(** [get_variable_description] returns [""] for a name that is not a
    declared property (or when there is no [properties] key), the
    property's [description] (or [""]) for a property declared as a dict,
    and raises for a property declared as any other value. *)
Theorem get_variable_description_cases (kv props : list (string * json)) (name : string) :
  (lookup "properties" kv = None -> get_variable_description (JObj kv) name = Ok (JStr "")) /\
  (lookup "properties" kv = Some (JObj props) ->
     (lookup name props = None -> get_variable_description (JObj kv) name = Ok (JStr "")) /\
     (forall ps, lookup name props = Some (JObj ps) ->
        get_variable_description (JObj kv) name =
        Ok (match lookup "description" ps with Some d => d | None => JStr "" end)) /\
     (forall x, lookup name props = Some x -> (forall ps, x <> JObj ps) ->
        exists e, get_variable_description (JObj kv) name = Err e)).
Proof.
  unfold get_variable_description, py_get, py_contains, py_getitem, mem.
  split.
  - intros Hp. rewrite Hp. reflexivity.
  - intros Hp. rewrite Hp. split; [|split].
    + intros Hn. rewrite Hn. reflexivity.
    + intros ps Hn. rewrite Hn. reflexivity.
    + intros x Hn Hx. rewrite Hn.
      destruct x; try (exfalso; eapply Hx; reflexivity); eexists; reflexivity.
Qed.

Lemma get_variable_description_cases_witness :
  get_variable_description schema_tone "tone" = Ok (JStr "") /\
  get_variable_description schema_tone "topic" = Ok (JStr "").
Proof.
  destruct (get_variable_description_cases
              [("properties", JObj [("tone", JObj [("type", JStr "string");
                                                   ("default", JStr "formal")])]);
               ("required", JArr [])]
              [("tone", JObj [("type", JStr "string"); ("default", JStr "formal")])] "tone")
    as [_ [Hn [Hd _]]]; [reflexivity|].
  destruct (get_variable_description_cases
              [("properties", JObj [("tone", JObj [("type", JStr "string");
                                                   ("default", JStr "formal")])]);
               ("required", JArr [])]
              [("tone", JObj [("type", JStr "string"); ("default", JStr "formal")])] "topic")
    as [_ [Hn' _]]; [reflexivity|].
  split; [exact (Hd _ eq_refl) | exact (Hn' eq_refl)].
Defined.

Lemma enrich_extends (props : list (string * json)) (e out : dict) :
  enrich props e = Ok out ->
  exists added, out = (e ++ added)%list /\ NoDup (map fst added) /\
    forall k x, In (k, x) added ->
      lookup k e = None /\ exists ps, In (k, JObj ps) props /\ lookup "default" ps = Some x.
Proof.
  revert e. induction props as [|[p ps] props IH]; simpl; intros e H.
  - inversion H; subst. exists []. rewrite app_nil_r.
    split; [reflexivity | split; [constructor | simpl; tauto]].
  - destruct (mem p e) eqn:Hm.
    + destruct (IH e H) as (added & -> & Hnd & Ha). exists added.
      split; [reflexivity | split; [exact Hnd|]].
      intros k x Hin. destruct (Ha k x Hin) as [Hk (qs & Hq & Hd)].
      split; [exact Hk | exists qs; auto].
    + destruct (py_contains "default" ps) as [[|]|] eqn:Hc; try discriminate.
      * destruct (py_getitem "default" ps) as [d|] eqn:Hg; [|discriminate].
        destruct (IH _ H) as (added & -> & Hnd & Ha).
        apply mem_lookup in Hm.
        assert (Hps : exists qs, ps = JObj qs /\ lookup "default" qs = Some d).
        { destruct ps; try discriminate. simpl in Hg.
          destruct (lookup "default" kv) eqn:E; inversion Hg; subst; eauto. }
        destruct Hps as (qs & -> & Hq).
        exists ((p, d) :: added). rewrite <- app_assoc. split; [reflexivity|].
        assert (Hfresh : forall k x, In (k, x) added -> k <> p).
        { intros k x Hin ->. destruct (Ha p x Hin) as [Hk _].
          rewrite lookup_app_none in Hk by exact Hm. simpl in Hk.
          rewrite String.eqb_refl in Hk. discriminate. }
        split.
        -- simpl. constructor; [|exact Hnd]. intros Hin.
           apply in_map_iff in Hin as [[k x] [Heq Hin]]. simpl in Heq; subst k.
           exact (Hfresh p x Hin eq_refl).
        -- intros k x [Heq|Hin].
           ++ inversion Heq; subst. split; [exact Hm|]. exists qs; auto.
           ++ destruct (Ha k x Hin) as [Hk (qs' & Hq' & Hd')]. split.
              ** destruct (lookup k e) eqn:Ek; [|reflexivity].
                 rewrite (lookup_app_some _ _ _ _ Ek) in Hk. discriminate.
              ** exists qs'; auto.
      * destruct (IH e H) as (added & -> & Hnd & Ha). exists added.
        split; [reflexivity | split; [exact Hnd|]].
        intros k x Hin. destruct (Ha k x Hin) as [Hk (qs & Hq & Hd)].
        split; [exact Hk | exists qs; auto].
Qed.

(** A successful [validate_variables_against_schema] returns the caller's
    variables unchanged and in order, followed by the defaults it adds: each
    added name is absent from the variables, added once, and a declared
    property (a dict) whose [default] is the added value. *)
Theorem validate_variables_against_schema_extends (v : dict) (s : json) (out : dict) :
  validate_variables_against_schema v s = Ok out ->
  exists added, out = (v ++ added)%list /\ NoDup (map fst added) /\
    forall k x, In (k, x) added ->
      lookup k v = None /\
      exists kv props ps, s = JObj kv /\ lookup "properties" kv = Some (JObj props) /\
        In (k, JObj ps) props /\ lookup "default" ps = Some x.
Proof.
  unfold validate_variables_against_schema. intros H.
  destruct (negb (py_truthy s)).
  { inversion H; subst. exists []. rewrite app_nil_r.
    split; [reflexivity | split; [constructor | simpl; tauto]]. }
  destruct (iter_errors recursion_limit s s (JObj v)) as [[|? ?]|]; try discriminate.
  destruct s as [| | | | |kv]; try discriminate.
  destruct (lookup "properties" kv) as [[| | | | |props]|] eqn:Hp; try discriminate.
  - destruct (enrich_extends _ _ _ H) as (added & -> & Hnd & Ha).
    exists added. split; [reflexivity | split; [exact Hnd|]].
    intros k x Hin. destruct (Ha k x Hin) as [Hk (ps & Hps & Hd)].
    split; [exact Hk|]. exists kv, props, ps. auto.
  - simpl in H. inversion H; subst. exists []. rewrite app_nil_r.
    split; [reflexivity | split; [constructor | simpl; tauto]].
Qed.

Lemma validate_variables_against_schema_extends_witness :
  exists added, [("tone", JStr "formal")] = ([] ++ added)%list /\ NoDup (map fst added) /\
    forall k x, In (k, x) added ->
      lookup k ([] : dict) = None /\
      exists kv props ps, schema_tone = JObj kv /\ lookup "properties" kv = Some (JObj props) /\
        In (k, JObj ps) props /\ lookup "default" ps = Some x.
Proof.
  apply (validate_variables_against_schema_extends [] schema_tone [("tone", JStr "formal")]).
  vm_compute. reflexivity.
Defined.

(* ------------------------------------------------------------------ *)
(** ** [str.format] on templates *)

Lemma string_app_empty_r (s : string) : (s ++ "")%string = s.
Proof. induction s as [|c s IH]; simpl; congruence. Qed.

Lemma format_escape (cs rest : list ascii) (vars : dict) :
  format_aux (escape_braces cs ++ rest) None vars =
  match format_aux rest None vars with
  | Ok r => Ok (string_of_list_ascii cs ++ r)
  | Err e => Err e
  end.
Proof.
  induction cs as [|c cs IH]; simpl.
  - destruct (format_aux rest None vars); reflexivity.
  - destruct (Ascii.eqb c "{"%char) eqn:E1; [|destruct (Ascii.eqb c "}"%char) eqn:E2].
    + apply Ascii.eqb_eq in E1; subst c. simpl. rewrite IH.
      destruct (format_aux rest None vars); reflexivity.
    + apply Ascii.eqb_eq in E2; subst c. simpl. rewrite IH.
      destruct (format_aux rest None vars); reflexivity.
    + simpl. rewrite E1, E2, IH. destruct (format_aux rest None vars); reflexivity.
Qed.

(** [str.format] renders a text whose braces are doubled back to the text,
    whatever the keyword arguments: a template with no replacement field
    neither fails nor reads the variables. *)
Theorem format_escape_braces (s : string) (vars : dict) :
  format (string_of_list_ascii (escape_braces (list_ascii_of_string s))) vars = Ok s.
Proof.
  unfold format. rewrite list_ascii_of_string_of_list_ascii.
  rewrite <- (app_nil_r (escape_braces _)), format_escape. simpl.
  rewrite string_of_list_ascii_of_string, string_app_empty_r. reflexivity.
Qed.

Lemma plain_field_name_spec (k : string) :
  plain_field_name k = true ->
  list_ascii_of_string k <> [] /\
  forallb is_digit (list_ascii_of_string k) = false /\
  forallb (fun c => negb (Ascii.eqb c "{"%char)) (list_ascii_of_string k) = true /\
  forallb (fun c => negb (Ascii.eqb c "}"%char)) (list_ascii_of_string k) = true /\
  forallb (fun c => negb (existsb (Ascii.eqb c) ["."%char; "["%char; "!"%char; ":"%char]))
          (list_ascii_of_string k) = true.
Proof.
  unfold plain_field_name. intros H. apply andb_prop in H as [Hd H].
  apply negb_true_iff in Hd.
  rewrite forallb_forall in H.
  split; [intros E; rewrite E in Hd; discriminate|]. split; [exact Hd|].
  split; [|split]; apply forallb_forall; intros c Hc; specialize (H c Hc); simpl in H |- *;
    destruct (Ascii.eqb c "."%char), (Ascii.eqb c "["%char), (Ascii.eqb c "!"%char),
      (Ascii.eqb c ":"%char), (Ascii.eqb c "{"%char), (Ascii.eqb c "}"%char);
    simpl in *; congruence.
Qed.

Lemma arg_name_plain (cs : list ascii) :
  forallb (fun c => negb (existsb (Ascii.eqb c) ["."%char; "["%char; "!"%char; ":"%char])) cs
  = true -> arg_name cs = cs.
Proof.
  induction cs as [|c cs IH]; simpl; [reflexivity|].
  intros H. apply andb_prop in H as [Hc H]. apply negb_true_iff in Hc.
  simpl in Hc. rewrite Hc, IH by exact H. reflexivity.
Qed.

Lemma format_field (lk rest acc : list ascii) (vars : dict) :
  forallb (fun c => negb (Ascii.eqb c "}"%char)) lk = true ->
  format_aux (lk ++ "}"%char :: rest) (Some acc) vars =
  match field_value (rev acc ++ lk) vars with
  | Err e => Err e
  | Ok v => match format_aux rest None vars with Ok r => Ok (v ++ r) | Err e => Err e end
  end.
Proof.
  revert acc. induction lk as [|c lk IH]; simpl; intros acc H.
  - rewrite app_nil_r. reflexivity.
  - apply andb_prop in H as [Hc H]. apply negb_true_iff in Hc. rewrite Hc.
    rewrite IH by exact H. simpl. rewrite <- app_assoc. reflexivity.
Qed.

Lemma format_open_field (lk rest : list ascii) (vars : dict) :
  lk <> [] -> forallb (fun c => negb (Ascii.eqb c "{"%char)) lk = true ->
  format_aux ("{"%char :: lk ++ rest) None vars = format_aux (lk ++ rest) (Some []) vars.
Proof.
  destruct lk as [|c lk]; [congruence|]. intros _ H. simpl in H.
  apply andb_prop in H as [Hc _]. apply negb_true_iff in Hc.
  change ("{"%char :: (c :: lk) ++ rest) with ("{"%char :: c :: (lk ++ rest)).
  cbn [format_aux Ascii.eqb Bool.eqb]. rewrite Hc. reflexivity.
Qed.

(** Formatting the template [a{k}b], where [a] and [b] are texts with their
    braces doubled and [k] is a plain keyword name, gives [a], then [str] of
    the variable [k], then [b]; it raises [KeyError(k)] when [k] is not among
    the variables. *)
Theorem format_field_template (a k b : string) (vars : dict) :
  plain_field_name k = true ->
  format (field_template a k b) vars =
  match lookup k vars with
  | Some v => Ok (a ++ py_str v ++ b)
  | None => Err (KeyError k)
  end.
Proof.
  intros Hk. destruct (plain_field_name_spec k Hk) as (Hne & Hd & Ho & Hc & Hs).
  unfold format, field_template. rewrite list_ascii_of_string_of_list_ascii, format_escape.
  simpl app. rewrite format_open_field by assumption.
  rewrite format_field by exact Hc. simpl rev. simpl app.
  unfold field_value. rewrite arg_name_plain, Hd by exact Hs.
  rewrite string_of_list_ascii_of_string.
  rewrite <- (app_nil_r (escape_braces (list_ascii_of_string b))), format_escape. simpl.
  rewrite !string_of_list_ascii_of_string, string_app_empty_r.
  destruct (lookup k vars); reflexivity.
Qed.

Lemma format_field_template_witness :
  format (field_template "Dear " "name" ", {welcome}!") [("name", JStr "Ada")]
  = Ok "Dear Ada, {welcome}!" /\
  format (field_template "Dear " "name" "!") [("tone", JStr "formal")]
  = Err (KeyError "name").
Proof.
  split.
  - rewrite (format_field_template "Dear " "name" ", {welcome}!" [("name", JStr "Ada")]);
      reflexivity.
  - rewrite (format_field_template "Dear " "name" "!" [("tone", JStr "formal")]);
      reflexivity.
Defined.
